(** * Kube Credential: signature engine, issuance and verification workflows

    A shallow embedding of the credential services of the repository:

    - [CryptoUtils] (utils/crypto.ts): the keyed SHA-256 signature over the
      JSON serialization of the seven canonical fields;
    - [IssuanceServiceClient] (utils/issuanceClient.ts): the outbound lookup;
    - [VerificationModel] / [VerificationController]: the verification state
      machine, its persistence and its HTTP face;
    - [CredentialModel] / [CredentialController]: the credential store and
      the issuance workflow.

    JavaScript strings are modelled by [string], read as the UTF-8 bytes of
    the text (what [Hash.update] consumes); [===] on strings is [String.eqb].
    Time values are milliseconds since the epoch in [Z]; [NaN] (an invalid
    date) is [None]. *)

From Stdlib Require Import ZArith List String Ascii Bool Lia.
From Stdlib Require Import DecimalString.
Import ListNotations.

Local Open Scope string_scope.
Local Open Scope Z_scope.

(* ===================================================================== *)
(** ** Strings as the runtime sees them *)

(** JavaScript truthiness of a string: only the empty string is falsy. *)
Definition truthy (s : string) : bool :=
  match s with
  | EmptyString => false
  | String _ _ => true
  end.

(** [a || b] on a possibly undefined string [a]. *)
Definition or_default (a : option string) (b : string) : string :=
  match a with
  | Some s => if truthy s then s else b
  | None => b
  end.

(** [v && { field: v }] spread into an object literal: the field is present
    only for a truthy [v]. *)
Definition spread_if_truthy (v : option string) : option string :=
  match v with
  | Some s => if truthy s then Some s else None
  | None => None
  end.

Definition dquote : string := String "034"%char EmptyString.

(** Decimal rendering of a natural number, as in a template literal. *)
Definition decimal (n : nat) : string := NilZero.string_of_uint (Nat.to_uint n).

(* ===================================================================== *)
(** ** JSON.stringify on strings and on the canonical object *)

Module JSON.

Definition hex_digit (n : Z) : ascii :=
  if n <? 10 then ascii_of_N (Z.to_N (48 + n))
  else ascii_of_N (Z.to_N (87 + n)).

Definition code (a : ascii) : Z := Z.of_N (N_of_ascii a).

Definition backslash : ascii := "092"%char.

(** QuoteJSONString, one code unit: the two-character escapes, [\u00xx]
    for the other control characters, and every other unit unchanged. *)
Definition escape (a : ascii) : string :=
  let n := code a in
  if n =? 8 then String backslash (String "b" EmptyString)
  else if n =? 9 then String backslash (String "t" EmptyString)
  else if n =? 10 then String backslash (String "n" EmptyString)
  else if n =? 12 then String backslash (String "f" EmptyString)
  else if n =? 13 then String backslash (String "r" EmptyString)
  else if n =? 34 then String backslash (String "034" EmptyString)
  else if n =? 92 then String backslash (String backslash EmptyString)
  else if n <? 32 then
    String backslash (String "u" (String "0" (String "0"
      (String (hex_digit (n / 16)) (String (hex_digit (n mod 16)) EmptyString)))))
  else String a EmptyString.

Fixpoint escape_all (s : string) : string :=
  match s with
  | EmptyString => EmptyString
  | String a rest => escape a ++ escape_all rest
  end.

(** [JSON.stringify(s)] for a string [s]. *)
Definition quote (s : string) : string := dquote ++ escape_all s ++ dquote.

(** One [key:value] member; keys here are plain identifiers. *)
Definition member (key value : string) : string :=
  dquote ++ key ++ dquote ++ ":" ++ quote value.

Fixpoint members (kvs : list (string * string)) : string :=
  match kvs with
  | [] => EmptyString
  | [(k, v)] => member k v
  | (k, v) :: rest => member k v ++ "," ++ members rest
  end.

(** [JSON.stringify] of an object whose own properties, in insertion
    order, are [kvs], all string-valued. *)
Definition stringify (kvs : list (string * string)) : string :=
  "{" ++ members kvs ++ "}".

End JSON.

(* ===================================================================== *)
(** ** SHA-256 (FIPS 180-4), as [crypto.createHash('sha256')] computes it *)

Module SHA256.

Local Open Scope list_scope.

Definition w32 : Z := 2 ^ 32.
Definition add32 (a b : Z) : Z := (a + b) mod w32.
Definition rotr (n x : Z) : Z :=
  Z.lor (Z.shiftr x n) ((Z.shiftl x (32 - n)) mod w32).
Definition shr (n x : Z) : Z := Z.shiftr x n.
Definition not32 (x : Z) : Z := w32 - 1 - x.

Definition Ch (x y z : Z) : Z := Z.lxor (Z.land x y) (Z.land (not32 x) z).
Definition Maj (x y z : Z) : Z :=
  Z.lxor (Z.lxor (Z.land x y) (Z.land x z)) (Z.land y z).
Definition Sigma0 (x : Z) : Z := Z.lxor (Z.lxor (rotr 2 x) (rotr 13 x)) (rotr 22 x).
Definition Sigma1 (x : Z) : Z := Z.lxor (Z.lxor (rotr 6 x) (rotr 11 x)) (rotr 25 x).
Definition sigma0 (x : Z) : Z := Z.lxor (Z.lxor (rotr 7 x) (rotr 18 x)) (shr 3 x).
Definition sigma1 (x : Z) : Z := Z.lxor (Z.lxor (rotr 17 x) (rotr 19 x)) (shr 10 x).

(** The constants are the first 32 bits of the fractional parts of the
    cube roots (round constants) and square roots (initial hash value) of
    the first primes. *)
Definition is_prime (n : nat) : bool :=
  forallb (fun d => negb (Nat.eqb (n mod d) 0)) (seq 2 (n - 2)).

(** The 64 primes up to 311. *)
Definition primes : list Z := map Z.of_nat (filter is_prime (seq 2 310)).

(** The integer [k]-th root of [n], found bit by bit below bit [bits]. *)
Fixpoint root (k : Z) (bits : nat) (n x : Z) : Z :=
  match bits with
  | O => x
  | S b =>
      let y := x + 2 ^ Z.of_nat b in
      root k b n (if y ^ k <=? n then y else x)
  end.

Definition fraction32 (k p : Z) : Z := root k 40 (p * 2 ^ (32 * k)) 0 mod w32.

Definition K : list Z := Eval vm_compute in map (fraction32 3) primes.

Definition H0 : list Z := Eval vm_compute in map (fraction32 2) (firstn 8 primes).

Definition bytes_of (s : string) : list Z :=
  map (fun a => Z.of_N (N_of_ascii a)) (list_ascii_of_string s).

(** Big-endian bytes of [x], [n] of them. *)
Fixpoint be_bytes (n : nat) (x : Z) : list Z :=
  match n with
  | O => []
  | S k => (x / 256 ^ Z.of_nat k) mod 256 :: be_bytes k x
  end.

(** The message, a [1] bit, zero bits up to 56 mod 64 bytes, and the bit
    length on 64 bits. *)
Definition pad (msg : list Z) : list Z :=
  let len := Z.of_nat (List.length msg) in
  let zeros := Z.to_nat ((55 - len) mod 64) in
  msg ++ 0x80 :: repeat 0 zeros ++ be_bytes 8 (8 * len).

Fixpoint be_words (fuel : nat) (bs : list Z) : list Z :=
  match fuel, bs with
  | S k, b0 :: b1 :: b2 :: b3 :: rest =>
      (((b0 * 256 + b1) * 256 + b2) * 256 + b3) :: be_words k rest
  | _, _ => []
  end.

(** The 64-word message schedule, built newest first. *)
Fixpoint schedule (n : nat) (rev_w : list Z) : list Z :=
  match n with
  | O => rev_w
  | S k =>
      let w := add32 (add32 (sigma1 (nth 1 rev_w 0)) (nth 6 rev_w 0))
                     (add32 (sigma0 (nth 14 rev_w 0)) (nth 15 rev_w 0)) in
      schedule k (w :: rev_w)
  end.

Record Regs := { ra : Z; rb : Z; rc : Z; rd : Z; re : Z; rf : Z; rg : Z; rh : Z }.

Definition round (r : Regs) (kw : Z * Z) : Regs :=
  let t1 := add32 (add32 (add32 (rh r) (Sigma1 (re r))) (Ch (re r) (rf r) (rg r)))
                  (add32 (fst kw) (snd kw)) in
  let t2 := add32 (Sigma0 (ra r)) (Maj (ra r) (rb r) (rc r)) in
  {| ra := add32 t1 t2; rb := ra r; rc := rb r; rd := rc r;
     re := add32 (rd r) t1; rf := re r; rg := rf r; rh := rg r |}.

Definition regs_of (h : list Z) : Regs :=
  {| ra := nth 0 h 0; rb := nth 1 h 0; rc := nth 2 h 0; rd := nth 3 h 0;
     re := nth 4 h 0; rf := nth 5 h 0; rg := nth 6 h 0; rh := nth 7 h 0 |}.

Definition list_of (r : Regs) : list Z :=
  [ra r; rb r; rc r; rd r; re r; rf r; rg r; rh r].

Definition compress (h : list Z) (block : list Z) : list Z :=
  let w := rev (schedule 48 (rev (be_words 16 block))) in
  let r := fold_left round (combine K w) (regs_of h) in
  map (fun p => add32 (fst p) (snd p)) (combine h (list_of r)).

Fixpoint blocks (fuel : nat) (h : list Z) (bs : list Z) : list Z :=
  match fuel with
  | O => h
  | S k =>
      match bs with
      | [] => h
      | _ => blocks k (compress h (firstn 64 bs)) (skipn 64 bs)
      end
  end.

Definition digest (msg : list Z) : list Z :=
  let p := pad msg in blocks (List.length p) H0 p.

Fixpoint hex_word (n : nat) (x : Z) : string :=
  match n with
  | O => EmptyString
  | S k => String (JSON.hex_digit ((x / 16 ^ Z.of_nat k) mod 16)) (hex_word k x)
  end.

(** [createHash('sha256').update(s).digest('hex')]. *)
Definition hex (s : string) : string :=
  String.concat EmptyString (map (hex_word 8) (digest (bytes_of s))).

End SHA256.

(* ===================================================================== *)
(** ** Data model (types/index.ts) *)

Record Credential := {
  id : string;
  holder_name : string;
  issuer : string;
  issued_date : string;
  credential_type : string;
  expiry_date : string;
  signature : string;
  worker_id : string;
  created_at : string;
  updated_at : string
}.

(** [Omit<Credential, 'signature' | 'created_at' | 'updated_at'>]: the
    seven canonical fields. *)
Record CredentialData := {
  d_id : string;
  d_holder_name : string;
  d_issuer : string;
  d_issued_date : string;
  d_credential_type : string;
  d_expiry_date : string;
  d_worker_id : string
}.

(** What [request.expiry_date] holds when it is there. The interface
    declares a [string]; the issuance handler passes on what the schema's
    [Joi.date()] rule made of the text it received: a [Date] object, here
    its time value. *)
Inductive ExpiryInput :=
| ExpiryText (text : string)
| ExpiryDate (time : Z).

Record CreateCredentialRequest := {
  req_holder_name : string;
  req_credential_type : string;
  req_expiry_date : option ExpiryInput
}.

Inductive VerificationStatus :=
| valid
| invalid
| expired
| not_found
| signature_mismatch.

Record VerificationResult := {
  v_id : string;
  credential_id : string;
  is_valid : bool;
  is_expired : bool;
  verification_status : VerificationStatus;
  verified_by : string;
  verified_at : string;
  issuer_worker_id : option string;
  v_issued_date : option string;
  v_created_at : string
}.

(** The part of [process.env] the services read. *)
Record ProcessEnv := {
  JWT_SECRET : option string;
  WORKER_ID : option string
}.

(** The canonical fields of a full credential. *)
Definition canonical (c : Credential) : CredentialData :=
  {| d_id := id c;
     d_holder_name := holder_name c;
     d_issuer := issuer c;
     d_issued_date := issued_date c;
     d_credential_type := credential_type c;
     d_expiry_date := expiry_date c;
     d_worker_id := worker_id c |}.

(* ===================================================================== *)
(** ** utils/crypto.ts *)

Module CryptoUtils.

(** The object literal handed to [JSON.stringify]: seven string members in
    this order. *)
Definition payload (credential : CredentialData) : string :=
  JSON.stringify
    [ ("id", d_id credential);
      ("holder_name", d_holder_name credential);
      ("issuer", d_issuer credential);
      ("issued_date", d_issued_date credential);
      ("credential_type", d_credential_type credential);
      ("expiry_date", d_expiry_date credential);
      ("worker_id", d_worker_id credential) ].

Definition secret (env : ProcessEnv) : string :=
  or_default (JWT_SECRET env) "default-secret".

(** What the hash is fed: [data + (process.env.JWT_SECRET || 'default-secret')]. *)
Definition signed_text (env : ProcessEnv) (credential : CredentialData) : string :=
  payload credential ++ secret env.

Definition generateCredentialSignature
    (env : ProcessEnv) (credential : CredentialData) : string :=
  SHA256.hex (signed_text env credential).

Definition verifyCredentialSignature
    (env : ProcessEnv) (credential : Credential) : bool :=
  let expectedSignature :=
    generateCredentialSignature env
      {| d_id := id credential;
         d_holder_name := holder_name credential;
         d_issuer := issuer credential;
         d_issued_date := issued_date credential;
         d_credential_type := credential_type credential;
         d_expiry_date := expiry_date credential;
         d_worker_id := worker_id credential |} in
  String.eqb expectedSignature (signature credential).

Definition hashData (data : string) : string := SHA256.hex data.

End CryptoUtils.

(* ===================================================================== *)
(** ** Computations that read and write a store and may throw *)

(** What a [throw] carries. *)
Inductive Exn :=
| Error (message : string)
    (** [new Error(message)] *)
| AxiosError (status : option nat) (message : string)
    (** a rejected axios call: [error.response?.status], [error.message] *)
| AppError (message : string) (statusCode : nat).
    (** [new AppError(message, statusCode)] *)

Definition exn_message (e : Exn) : string :=
  match e with
  | Error m => m
  | AxiosError _ m => m
  | AppError m _ => m
  end.

Inductive Completion (A : Type) :=
| Normal (a : A)
| Throw (e : Exn).
Arguments Normal {A} a.
Arguments Throw {A} e.

(** A computation over a store [S]; the store a [Throw] leaves behind is
    the one the handler sees. *)
Definition M (S A : Type) : Type := S -> Completion A * S.

Definition ret {S A} (a : A) : M S A := fun s => (Normal a, s).

Definition bind {S A B} (m : M S A) (k : A -> M S B) : M S B :=
  fun s =>
    match m s with
    | (Normal a, s') => k a s'
    | (Throw e, s') => (Throw e, s')
    end.

Definition throw {S A} (e : Exn) : M S A := fun s => (Throw e, s).

Definition try_catch {S A} (body : M S A) (handler : Exn -> M S A) : M S A :=
  fun s =>
    match body s with
    | (Normal a, s') => (Normal a, s')
    | (Throw e, s') => handler e s'
    end.

Definition gets {S A} (f : S -> A) : M S A := fun s => (Normal (f s), s).

Definition modify {S} (f : S -> S) : M S unit := fun s => (Normal tt, f s).

(** Run [m] on the component of the store selected by [proj]/[inj]. *)
Definition zoom {S T A} (proj : S -> T) (inj : T -> S -> S) (m : M T A) : M S A :=
  fun s => let (r, t) := m (proj s) in (r, inj t s).

Declare Scope comp_scope.
Delimit Scope comp_scope with comp.
Notation "x <- m ;; k" := (bind m (fun x => k))
  (at level 61, m at next level, right associativity) : comp_scope.
Notation "m ;; k" := (bind m (fun _ => k))
  (at level 61, right associativity) : comp_scope.
Local Open Scope comp_scope.

(* ===================================================================== *)
(** ** config/database.ts *)

Module Database.

(** The [db] handle and the rows of the service's one table, oldest first;
    [None] is [this.db === null]. *)
Definition t (Row : Type) : Type := option (list Row).

Definition not_connected : Exn := Error "Database not connected".

(** [database.run] of an INSERT of [row]; [violates] is the table's
    constraint check, whose failure sqlite reports as an error. *)
Definition run_insert {Row} (violates : list Row -> Row -> bool) (row : Row)
  : M (t Row) unit :=
  fun db =>
    match db with
    | None => (Throw not_connected, db)
    | Some rows =>
        if violates rows row
        then (Throw (Error "SQLITE_CONSTRAINT"), db)
        else (Normal tt, Some (rows ++ [row])%list)
    end.

(** [database.get] of a SELECT with condition [where_]: the first row. *)
Definition get {Row} (where_ : Row -> bool) : M (t Row) (option Row) :=
  fun db =>
    match db with
    | None => (Throw not_connected, db)
    | Some rows => (Normal (find where_ rows), db)
    end.

(** [database.all] of a SELECT with condition [where_]. *)
Definition all {Row} (where_ : Row -> bool) : M (t Row) (list Row) :=
  fun db =>
    match db with
    | None => (Throw not_connected, db)
    | Some rows => (Normal (filter where_ rows), db)
    end.

(** [database.get] of [SELECT COUNT( * ) as count]: [result?.count || 0]. *)
Definition count {Row} : M (t Row) nat :=
  fun db =>
    match db with
    | None => (Throw not_connected, db)
    | Some rows => (Normal (List.length rows), db)
    end.

End Database.

(* ===================================================================== *)
(** ** What a request handler reads from its surroundings *)

Record Runtime := {
  process_env : ProcessEnv;
  Date_parse : string -> option Z;
    (** the time value of [new Date(s)]; [None] for an invalid date *)
  toISOString : Z -> string;
  sqlite_date_text : Z -> string;
    (** what a TEXT column holds after the sqlite3 driver bound a [Date]
        with this time value: the driver binds the number *)
  start_time : Z;
    (** the clock where the handler first reads it *)
  check_time : Z;
    (** the clock where the model function reads it again: the expiry
        comparison, the default expiry *)
  reply_time : Z;
    (** the clock when the response envelope is stamped *)
  uuidv4 : string;
  random_1000 : nat;
    (** [Math.floor(Math.random() * 1000)] as the model function draws it *)
  handler_random_1000 : nat
    (** the same expression as the controller draws it *)
}.

(** [a < b] on two dates: compares time values, false when either is NaN. *)
Definition Date_lt (a b : option Z) : bool :=
  match a, b with
  | Some x, Some y => x <? y
  | _, _ => false
  end.

(** [process.env.WORKER_ID || `worker-${...}`]. *)
Definition worker_of (rt : Runtime) : string :=
  or_default (WORKER_ID (process_env rt)) ("worker-" ++ decimal (random_1000 rt)).

(** The same expression evaluated by the controller. *)
Definition handler_worker_of (rt : Runtime) : string :=
  or_default (WORKER_ID (process_env rt)) ("worker-" ++ decimal (handler_random_1000 rt)).

(** [process.env.WORKER_ID || 'unknown-worker']. *)
Definition worker_or_unknown (rt : Runtime) : string :=
  or_default (WORKER_ID (process_env rt)) "unknown-worker".

Record ApiResponse (T : Type) := {
  success : bool;
  message : string;
  data : option T;
  response_worker_id : string;
  timestamp : string
}.
Arguments success {T} _.
Arguments message {T} _.
Arguments data {T} _.
Arguments response_worker_id {T} _.
Arguments timestamp {T} _.

(** [res.status(code).json(body)]; [res.json(body)] is status 200. *)
Record HttpResponse (T : Type) := {
  status : nat;
  body : ApiResponse T
}.
Arguments status {T} _.
Arguments body {T} _.

(** Outcome of a Joi [validate]. *)
Inductive Validation (A : Type) :=
| Valid (value : A)
| Invalid (details : list string).
Arguments Valid {A} value.
Arguments Invalid {A} details.

(* ===================================================================== *)
(** ** The verification service *)

(** The mutable surroundings of the verification service: its table, and
    the credential ids it has asked the issuance service for, oldest
    first. *)
Record Service := {
  verifications : Database.t VerificationResult;
  lookups : list string
}.

Definition on_verifications {A} (m : M (Database.t VerificationResult) A)
  : M Service A :=
  zoom verifications
       (fun db s => {| verifications := db; lookups := lookups s |}) m.

(** How one GET to the issuance service can end. *)
Inductive AxiosOutcome :=
| Fulfilled (body_success : bool) (body_data : option Credential)
    (** a 2xx response; the truthiness of [response.data.success] and the
        value of [response.data.data] ([None] when falsy) *)
| Rejected (status : option nat) (message : string).
    (** a non-2xx response ([Some status]) or no response at all: transport
        error, timeout ([None]) *)

(** The issuance service as the client sees it: the outcome of
    [GET /api/credentials/{id}]. *)
Definition Network : Type := string -> AxiosOutcome.

(** How [GET /health] on the issuance service can end: a 2xx response, with
    whether [response.data.success === true], or a rejection. *)
Inductive HealthOutcome :=
| HealthFulfilled (success_is_true : bool)
| HealthRejected (status : option nat) (message : string).

Module IssuanceServiceClient.

(** [this.client.get(`/api/credentials/${credentialId}`)]. *)
Definition client_get (net : Network) (credentialId : string)
  : M Service (bool * option Credential) :=
  fun s =>
    let s' := {| verifications := verifications s;
                 lookups := (lookups s ++ [credentialId])%list |} in
    match net credentialId with
    | Fulfilled ok d => (Normal (ok, d), s')
    | Rejected st msg => (Throw (AxiosError st msg), s')
    end.

Definition response_status (error : Exn) : option nat :=
  match error with
  | AxiosError st _ => st
  | _ => None
  end.

Definition is_404 (st : option nat) : bool :=
  match st with
  | Some n => Nat.eqb n 404
  | None => false
  end.

Definition getCredential (net : Network) (credentialId : string)
  : M Service (option Credential) :=
  try_catch
    (response <- client_get net credentialId ;;
     match response with
     | (true, Some d) => ret (Some d)
     | _ => ret None
     end)
    (fun error =>
       if is_404 (response_status error)
       then ret None
       else throw (Error ("Failed to fetch credential from issuance service: "
                          ++ exn_message error))).

Definition healthCheck (health : HealthOutcome) : M Service bool :=
  try_catch
    (match health with
     | HealthFulfilled success_is_true => ret success_is_true
     | HealthRejected st msg => throw (AxiosError st msg)
     end)
    (fun error => ret false).

End IssuanceServiceClient.

Module VerificationModel.

(** The [let] variables of [verifyCredential]. *)
Record Locals := {
  verificationStatus : VerificationStatus;
  isValid : bool;
  isExpired : bool;
  issuerWorkerId : option string;
  issuedDate : option string
}.

Definition initial : Locals :=
  {| verificationStatus := invalid; isValid := false; isExpired := false;
     issuerWorkerId := None; issuedDate := None |}.

Definition set_verificationStatus (v : VerificationStatus) (l : Locals) : Locals :=
  {| verificationStatus := v; isValid := isValid l; isExpired := isExpired l;
     issuerWorkerId := issuerWorkerId l; issuedDate := issuedDate l |}.
Definition set_isValid (v : bool) (l : Locals) : Locals :=
  {| verificationStatus := verificationStatus l; isValid := v; isExpired := isExpired l;
     issuerWorkerId := issuerWorkerId l; issuedDate := issuedDate l |}.
Definition set_isExpired (v : bool) (l : Locals) : Locals :=
  {| verificationStatus := verificationStatus l; isValid := isValid l; isExpired := v;
     issuerWorkerId := issuerWorkerId l; issuedDate := issuedDate l |}.
Definition set_issuerWorkerId (v : option string) (l : Locals) : Locals :=
  {| verificationStatus := verificationStatus l; isValid := isValid l;
     isExpired := isExpired l; issuerWorkerId := v; issuedDate := issuedDate l |}.
Definition set_issuedDate (v : option string) (l : Locals) : Locals :=
  {| verificationStatus := verificationStatus l; isValid := isValid l;
     isExpired := isExpired l; issuerWorkerId := issuerWorkerId l; issuedDate := v |}.

(** The function body runs over its locals and the service. *)
Definition Frame : Type := Locals * Service.

Definition assign (f : Locals -> Locals) : M Frame unit :=
  modify (fun fr => (f (fst fr), snd fr)).

Definition read {A} (f : Locals -> A) : M Frame A := gets (fun fr => f (fst fr)).

Definition await {A} (m : M Service A) : M Frame A :=
  zoom snd (fun s fr => (fst fr, s)) m.

Definition with_locals {A} (m : M Frame A) : M Service A :=
  fun s => let (r, fr) := m (initial, s) in (r, snd fr).

Definition compareCredentials (credential1 credential2 : Credential) : bool :=
  String.eqb (id credential1) (id credential2) &&
  String.eqb (holder_name credential1) (holder_name credential2) &&
  String.eqb (issuer credential1) (issuer credential2) &&
  String.eqb (issued_date credential1) (issued_date credential2) &&
  String.eqb (credential_type credential1) (credential_type credential2) &&
  String.eqb (expiry_date credential1) (expiry_date credential2) &&
  String.eqb (signature credential1) (signature credential2).

(** Modelled from the spec: the CREATE TABLE of [verifications] (the
    verification service's config/database.ts) is missing; the spec has
    the verification table append-only with no contention-sensitive
    invariant, so an INSERT violates nothing. *)
Definition verifications_violates
    (rows : list VerificationResult) (row : VerificationResult) : bool := false.

Definition saveVerification (verification : VerificationResult) : M Service unit :=
  try_catch
    (on_verifications (Database.run_insert verifications_violates verification))
    (fun error => throw (Error "Failed to save verification record")).

(** The [verification] object literal, from the values in scope where it is
    built. *)
Definition verification_of (now workerId fresh_id : string) (credential : Credential)
    (l : Locals) : VerificationResult :=
  {| v_id := fresh_id;
     credential_id := id credential;
     is_valid := isValid l;
     is_expired := isExpired l;
     verification_status := verificationStatus l;
     verified_by := workerId;
     verified_at := now;
     issuer_worker_id := spread_if_truthy (issuerWorkerId l);
     v_issued_date := spread_if_truthy (issuedDate l);
     v_created_at := now |}.

Definition verifyCredential (rt : Runtime) (net : Network) (credential : Credential)
  : M Service VerificationResult :=
  let now := toISOString rt (start_time rt) in
  let workerId := worker_of rt in
  with_locals
    (try_catch
       (let signatureValid :=
          CryptoUtils.verifyCredentialSignature (process_env rt) credential in
        if negb signatureValid then
          assign (set_verificationStatus signature_mismatch)
        else
          issuedCredential <-
            await (IssuanceServiceClient.getCredential net (id credential)) ;;
          match issuedCredential with
          | None => assign (set_verificationStatus not_found)
          | Some issuedCredential =>
              let fieldsMatch := compareCredentials credential issuedCredential in
              if negb fieldsMatch then
                assign (set_verificationStatus invalid)
              else
                assign (set_isExpired
                          (Date_lt (Date_parse rt (expiry_date credential))
                                   (Some (check_time rt)))) ;;
                assign (set_issuerWorkerId (Some (worker_id issuedCredential))) ;;
                assign (set_issuedDate (Some (issued_date issuedCredential))) ;;
                nowExpired <- read isExpired ;;
                if (nowExpired : bool) then
                  assign (set_verificationStatus expired)
                else
                  assign (set_verificationStatus valid) ;;
                  assign (set_isValid true)
          end)
       (fun error => assign (set_verificationStatus invalid)) ;;
     l <- read (fun l => l) ;;
     let verification := verification_of now workerId (uuidv4 rt) credential l in
     await (saveVerification verification) ;;
     ret verification).

Definition findById (wanted : string) : M Service (option VerificationResult) :=
  try_catch
    (on_verifications (Database.get (fun row => String.eqb (v_id row) wanted)))
    (fun error => throw (Error "Failed to find verification")).

Definition count : M Service nat :=
  try_catch
    (on_verifications Database.count)
    (fun error => throw (Error "Failed to count verifications")).

End VerificationModel.

(** The [data] of a verification response. *)
Record VerificationData := {
  r_verification_id : string;
  r_credential_id : string;
  r_is_valid : bool;
  r_is_expired : bool;
  r_verification_status : VerificationStatus;
  r_verified_by : string;
  r_verified_at : string;
  r_issuer_worker_id : option string;
  r_issued_date : option string
}.

(** The [data] of a health response; [h_issuance_service] is absent in the
    issuance service's own. *)
Record HealthData := {
  h_status : string;
  h_uptime : Z;
  h_database : string;
  h_issuance_service : option string;
  h_worker_id : string;
  h_timestamp : string
}.

Module VerificationController.

(** [POST /api/verifications]; [validated] is what
    [verificationRequestSchema.validate(req.body)] returned. *)
Definition verifyCredential (rt : Runtime) (net : Network)
    (validated : Validation Credential)
  : M Service (HttpResponse VerificationData) :=
  let workerId := handler_worker_of rt in
  match validated with
  | Invalid details =>
      ret {| status := 400;
             body := {| success := false;
                        message := "Validation error: " ++ String.concat ", " details;
                        data := None;
                        response_worker_id := workerId;
                        timestamp := toISOString rt (reply_time rt) |} |}
  | Valid credential =>
      try_catch
        (verificationResult <- VerificationModel.verifyCredential rt net credential ;;
         ret {| status := 200;
                body :=
                  {| success := true;
                     message := "Credential verification completed by " ++ workerId;
                     data := Some
                       {| r_verification_id := v_id verificationResult;
                          r_credential_id := credential_id verificationResult;
                          r_is_valid := is_valid verificationResult;
                          r_is_expired := is_expired verificationResult;
                          r_verification_status := verification_status verificationResult;
                          r_verified_by := verified_by verificationResult;
                          r_verified_at := verified_at verificationResult;
                          r_issuer_worker_id := issuer_worker_id verificationResult;
                          r_issued_date := v_issued_date verificationResult |};
                     response_worker_id := workerId;
                     timestamp := toISOString rt (reply_time rt) |} |})
        (fun error => throw (AppError "Failed to verify credential" 500))
  end.

(** [GET /api/verifications/:id]. *)
Definition getVerification (rt : Runtime) (wanted : string)
  : M Service (HttpResponse VerificationResult) :=
  let workerId := worker_or_unknown rt in
  if negb (truthy wanted) then throw (AppError "Verification ID is required" 400)
  else
    try_catch
      (verification <- VerificationModel.findById wanted ;;
       match verification with
       | None =>
           ret {| status := 404;
                  body := {| success := false;
                             message := "Verification not found";
                             data := None;
                             response_worker_id := workerId;
                             timestamp := toISOString rt (reply_time rt) |} |}
       | Some verification =>
           ret {| status := 200;
                  body := {| success := true;
                             message := "Verification retrieved successfully";
                             data := Some verification;
                             response_worker_id := workerId;
                             timestamp := toISOString rt (reply_time rt) |} |}
       end)
      (fun error => throw (AppError "Failed to retrieve verification" 500)).

(** [GET /health]; [uptime] is [Math.floor(process.uptime())]. *)
Definition healthCheck (rt : Runtime) (health : HealthOutcome) (uptime : Z)
  : M Service (HttpResponse HealthData) :=
  let workerId := worker_or_unknown rt in
  try_catch
    (VerificationModel.count ;;
     issuanceServiceHealthy <- IssuanceServiceClient.healthCheck health ;;
     ret {| status := 200;
            body := {| success := true;
                       message := "Service is healthy";
                       data := Some
                         {| h_status := "healthy";
                            h_uptime := uptime;
                            h_database := "connected";
                            h_issuance_service :=
                              Some (if (issuanceServiceHealthy : bool)
                                    then "reachable" else "unreachable");
                            h_worker_id := workerId;
                            h_timestamp := toISOString rt (reply_time rt) |};
                       response_worker_id := workerId;
                       timestamp := toISOString rt (reply_time rt) |} |})
    (fun error =>
       ret {| status := 503;
              body := {| success := false;
                         message := "Service is unhealthy";
                         data := Some
                           {| h_status := "unhealthy";
                              h_uptime := uptime;
                              h_database := "disconnected";
                              h_issuance_service := Some "unknown";
                              h_worker_id := workerId;
                              h_timestamp := toISOString rt (reply_time rt) |};
                         response_worker_id := workerId;
                         timestamp := toISOString rt (reply_time rt) |} |}).

End VerificationController.

(* ===================================================================== *)
(** ** The issuance service *)

Module CredentialModel.

(** [id TEXT PRIMARY KEY] of the [credentials] table. *)
Definition credentials_violates (rows : list Credential) (row : Credential) : bool :=
  existsb (fun r => String.eqb (id r) (id row)) rows.

Definition year_ms : Z := 365 * 24 * 60 * 60 * 1000.

(** [request.expiry_date || fallback]: a [Date] is an object, truthy
    whatever its time value. *)
Definition expiry_or (given : option ExpiryInput) (fallback : string) : ExpiryInput :=
  match given with
  | Some (ExpiryText s) => if truthy s then ExpiryText s else ExpiryText fallback
  | Some (ExpiryDate t) => ExpiryDate t
  | None => ExpiryText fallback
  end.

(** The member [JSON.stringify] writes for the value: a [Date] answers
    [toJSON] with its [toISOString]. *)
Definition expiry_json (rt : Runtime) (e : ExpiryInput) : string :=
  match e with
  | ExpiryText s => s
  | ExpiryDate t => toISOString rt t
  end.

(** What the [expiry_date] column holds after the value was bound as a
    parameter of the INSERT. *)
Definition expiry_bound (rt : Runtime) (e : ExpiryInput) : string :=
  match e with
  | ExpiryText s => s
  | ExpiryDate t => sqlite_date_text rt t
  end.

(** The credential is returned as [res.json] will write it, and signed
    over the same serialization; the row is what the bound parameters
    leave in the table. The two differ in [expiry_date] when the request
    carried a [Date]. *)
Definition create (rt : Runtime) (request : CreateCredentialRequest)
  : M (Database.t Credential) Credential :=
  let now := toISOString rt (start_time rt) in
  let workerId := worker_of rt in
  let expiryDate :=
    expiry_or (req_expiry_date request) (toISOString rt (check_time rt + year_ms)) in
  let credentialData :=
    {| d_id := uuidv4 rt;
       d_holder_name := req_holder_name request;
       d_issuer := "Kube Credential Authority";
       d_issued_date := now;
       d_credential_type := req_credential_type request;
       d_expiry_date := expiry_json rt expiryDate;
       d_worker_id := workerId |} in
  let signature :=
    CryptoUtils.generateCredentialSignature (process_env rt) credentialData in
  let credential :=
    {| id := d_id credentialData;
       holder_name := d_holder_name credentialData;
       issuer := d_issuer credentialData;
       issued_date := d_issued_date credentialData;
       credential_type := d_credential_type credentialData;
       expiry_date := d_expiry_date credentialData;
       signature := signature;
       worker_id := d_worker_id credentialData;
       created_at := now;
       updated_at := now |} in
  let params :=
    {| id := id credential;
       holder_name := holder_name credential;
       issuer := issuer credential;
       issued_date := issued_date credential;
       credential_type := credential_type credential;
       expiry_date := expiry_bound rt expiryDate;
       signature := signature;
       worker_id := worker_id credential;
       created_at := created_at credential;
       updated_at := updated_at credential |} in
  try_catch
    (Database.run_insert credentials_violates params ;;
     ret credential)
    (fun error => throw (Error "Failed to create credential")).

Definition findById (wanted : string) : M (Database.t Credential) (option Credential) :=
  try_catch
    (Database.get (fun row => String.eqb (id row) wanted))
    (fun error => throw (Error "Failed to find credential")).

Definition findByHolderAndType (holderName credentialType : string)
  : M (Database.t Credential) (option Credential) :=
  try_catch
    (Database.get
       (fun row => String.eqb (holder_name row) holderName
                   && String.eqb (credential_type row) credentialType))
    (fun error => throw (Error "Failed to find credential")).

Definition verifyCredential (rt : Runtime) (credential : Credential) : bool :=
  CryptoUtils.verifyCredentialSignature (process_env rt) credential.

Definition isExpired (rt : Runtime) (credential : Credential) : bool :=
  Date_lt (Date_parse rt (expiry_date credential)) (Some (check_time rt)).

Definition count : M (Database.t Credential) nat :=
  try_catch
    Database.count
    (fun error => throw (Error "Failed to count credentials")).

End CredentialModel.

(** The [data] of an issuance response. *)
Inductive IssueData :=
| Issued (credential : Credential)
| AlreadyIssued (existing_credential_id issued_date issued_by : string).

(** The [data] of [GET /api/credentials/{id}]: the credential spread, with
    the two computed flags. *)
Record CredentialView := {
  view_credential : Credential;
  view_is_valid : bool;
  view_is_expired : bool
}.

Module CredentialController.

(** [POST /api/credentials]; [validated] is what
    [validateCredentialRequest(req.body)] returned: on success the value
    with its [expiry_date], when the body had one, converted to a [Date]
    ([ExpiryDate]). *)
Definition issueCredential (rt : Runtime)
    (validated : Validation CreateCredentialRequest)
  : M (Database.t Credential) (HttpResponse IssueData) :=
  let workerId := handler_worker_of rt in
  match validated with
  | Invalid details =>
      ret {| status := 400;
             body := {| success := false;
                        message := "Validation error: " ++ String.concat ", " details;
                        data := None;
                        response_worker_id := workerId;
                        timestamp := toISOString rt (reply_time rt) |} |}
  | Valid credentialRequest =>
      try_catch
        (existingCredential <-
           CredentialModel.findByHolderAndType
             (req_holder_name credentialRequest)
             (req_credential_type credentialRequest) ;;
         match existingCredential with
         | Some existingCredential =>
             ret {| status := 409;
                    body :=
                      {| success := false;
                         message :=
                           "Credential of type '"
                           ++ req_credential_type credentialRequest
                           ++ "' already issued for "
                           ++ req_holder_name credentialRequest;
                         data := Some (AlreadyIssued
                                         (id existingCredential)
                                         (issued_date existingCredential)
                                         (worker_id existingCredential));
                         response_worker_id := workerId;
                         timestamp := toISOString rt (reply_time rt) |} |}
         | None =>
             credential <- CredentialModel.create rt credentialRequest ;;
             ret {| status := 201;
                    body :=
                      {| success := true;
                         message := "Credential issued by " ++ workerId;
                         data := Some (Issued credential);
                         response_worker_id := workerId;
                         timestamp := toISOString rt (reply_time rt) |} |}
         end)
        (fun error => throw (AppError "Failed to issue credential" 500))
  end.

(** [GET /api/credentials/:id]. *)
Definition getCredential (rt : Runtime) (wanted : string)
  : M (Database.t Credential) (HttpResponse CredentialView) :=
  let workerId := worker_or_unknown rt in
  if negb (truthy wanted) then throw (AppError "Credential ID is required" 400)
  else
    try_catch
      (credential <- CredentialModel.findById wanted ;;
       match credential with
       | None =>
           ret {| status := 404;
                  body := {| success := false;
                             message := "Credential not found";
                             data := None;
                             response_worker_id := workerId;
                             timestamp := toISOString rt (reply_time rt) |} |}
       | Some credential =>
           let isValid := CredentialModel.verifyCredential rt credential in
           let isExpired := CredentialModel.isExpired rt credential in
           ret {| status := 200;
                  body := {| success := true;
                             message := "Credential retrieved successfully";
                             data := Some {| view_credential := credential;
                                             view_is_valid := isValid;
                                             view_is_expired := isExpired |};
                             response_worker_id := workerId;
                             timestamp := toISOString rt (reply_time rt) |} |}
       end)
      (fun error => throw (AppError "Failed to retrieve credential" 500)).

(** [GET /health]; [uptime] is [Math.floor(process.uptime())]. *)
Definition healthCheck (rt : Runtime) (uptime : Z)
  : M (Database.t Credential) (HttpResponse HealthData) :=
  let workerId := worker_or_unknown rt in
  try_catch
    (CredentialModel.count ;;
     ret {| status := 200;
            body := {| success := true;
                       message := "Service is healthy";
                       data := Some
                         {| h_status := "healthy";
                            h_uptime := uptime;
                            h_database := "connected";
                            h_issuance_service := None;
                            h_worker_id := workerId;
                            h_timestamp := toISOString rt (reply_time rt) |};
                       response_worker_id := workerId;
                       timestamp := toISOString rt (reply_time rt) |} |})
    (fun error =>
       ret {| status := 503;
              body := {| success := false;
                         message := "Service is unhealthy";
                         data := Some
                           {| h_status := "unhealthy";
                              h_uptime := uptime;
                              h_database := "disconnected";
                              h_issuance_service := None;
                              h_worker_id := workerId;
                              h_timestamp := toISOString rt (reply_time rt) |};
                         response_worker_id := workerId;
                         timestamp := toISOString rt (reply_time rt) |} |}).

End CredentialController.

(* ===================================================================== *)
(** ** middleware/errorHandler.ts *)

Module ErrorHandler.

(** [err.name]: neither [AppError] nor [new Error] sets it. *)
Definition name_of (err : Exn) : string :=
  match err with
  | Error _ => "Error"
  | AxiosError _ _ => "AxiosError"
  | AppError _ _ => "Error"
  end.

Definition errorHandler {T} (rt : Runtime) (err : Exn) : HttpResponse T :=
  let workerId := worker_or_unknown rt in
  let '(statusCode, message) :=
    match err with
    | AppError m code => (code, m)
    | _ =>
        if String.eqb (name_of err) "ValidationError" then (400%nat, "Validation Error")
        else if String.eqb (name_of err) "CastError" then (400%nat, "Invalid ID format")
        else (500%nat, "Internal Server Error")
    end in
  {| status := statusCode;
     body := {| success := false;
                message := message;
                data := None;
                response_worker_id := workerId;
                timestamp := toISOString rt (reply_time rt) |} |}.

(** [asyncHandler(fn)] mounted before [errorHandler]: what the client
    receives, and the store the request leaves. *)
Definition asyncHandler {S T} (rt : Runtime) (fn : M S (HttpResponse T))
  : S -> HttpResponse T * S :=
  fun s =>
    match fn s with
    | (Normal response, s') => (response, s')
    | (Throw err, s') => (errorHandler rt err, s')
    end.

End ErrorHandler.

(* ===================================================================== *)
(** ** The two services on one wire *)

(** Ids that reach the router as they are written: the client splices the
    id into the request path without encoding it, and the path is then
    parsed, routed and decoded, so only an id of letters, digits, [-] and
    [_] (a uuid is one) is sure to arrive as [req.params.id]. *)
Definition path_safe_char (a : ascii) : bool :=
  let n := JSON.code a in
  ((48 <=? n) && (n <=? 57)) || ((65 <=? n) && (n <=? 90))
  || ((97 <=? n) && (n <=? 122)) || (n =? 45) || (n =? 95).

Definition path_safe (wanted : string) : bool :=
  truthy wanted && forallb path_safe_char (list_ascii_of_string wanted).

(** [GET /api/credentials/{id}] of an issuance service with store [db], as
    the verification service's axios client sees it when the request
    reaches the handler and the answer comes back: a 2xx answer fulfils
    with the parsed body, any other status rejects with that status. For
    an id that is not [path_safe] the request the router sees is another
    one; nothing is said of it ([None]). *)
Definition issuance_endpoint (issuer_rt : Runtime) (db : Database.t Credential)
    (wanted : string) : option AxiosOutcome :=
  if path_safe wanted then
    let response :=
      fst (ErrorHandler.asyncHandler issuer_rt
             (CredentialController.getCredential issuer_rt wanted) db) in
    Some (if (200 <=? status response)%nat && (status response <? 300)%nat
          then Fulfilled (success (body response))
                         (option_map view_credential (data (body response)))
          else Rejected (Some (status response))
                        ("Request failed with status code "
                         ++ decimal (status response)))
  else None.

(** The lookup of [wanted] is carried to an issuance worker with runtime
    [issuer_rt] and store [db], and the answer back: the id is path-safe,
    and there is no transport error, no timeout, and nothing that answers
    in the handler's place. *)
Definition carried (net : Network) (issuer_rt : Runtime)
    (db : Database.t Credential) (wanted : string) : Prop :=
  issuance_endpoint issuer_rt db wanted = Some (net wanted).

(* ===================================================================== *)
(** ** utils/validation.ts: the helpers *)

(** The string a status is on the wire. *)
Definition status_name (st : VerificationStatus) : string :=
  match st with
  | valid => "valid"
  | invalid => "invalid"
  | expired => "expired"
  | not_found => "not_found"
  | signature_mismatch => "signature_mismatch"
  end.

(** [sanitizeInput] of utils/validation.ts, the same text in the issuance
    service and in the frontend. *)
Module ValidationUtils.

(** The characters [String.prototype.trim] strips, as UTF-8: tab, line
    feed, vertical tab, form feed, carriage return, space, U+00A0, U+1680,
    U+2000 to U+200A, U+2028, U+2029, U+202F, U+205F, U+3000, U+FEFF. *)
Definition white_space : list (list Z) :=
  [ [9]; [10]; [11]; [12]; [13]; [32];
    [194; 160];
    [225; 154; 128];
    [226; 128; 128]; [226; 128; 129]; [226; 128; 130]; [226; 128; 131];
    [226; 128; 132]; [226; 128; 133]; [226; 128; 134]; [226; 128; 135];
    [226; 128; 136]; [226; 128; 137]; [226; 128; 138];
    [226; 128; 168]; [226; 128; 169]; [226; 128; 175];
    [226; 129; 159];
    [227; 128; 128];
    [239; 187; 191] ]%list.

(** [bs] without the prefix [p], when it has it. *)
Fixpoint strip_prefix (p bs : list Z) : option (list Z) :=
  match p, bs with
  | [], _ => Some bs
  | x :: p', b :: bs' => if x =? b then strip_prefix p' bs' else None
  | _ :: _, [] => None
  end.

(** [bs] without one leading character of [ws], when it starts with one. *)
Fixpoint strip_one (ws : list (list Z)) (bs : list Z) : option (list Z) :=
  match ws with
  | [] => None
  | w :: rest =>
      match strip_prefix w bs with
      | Some bs' => Some bs'
      | None => strip_one rest bs
      end
  end.

Fixpoint strip_all (ws : list (list Z)) (fuel : nat) (bs : list Z) : list Z :=
  match fuel with
  | O => bs
  | S k =>
      match strip_one ws bs with
      | Some bs' => strip_all ws k bs'
      | None => bs
      end
  end.

Definition trimStart (bs : list Z) : list Z :=
  strip_all white_space (List.length bs) bs.

(** Trailing white space is leading white space of the reversed bytes,
    each character's bytes reversed. *)
Definition trimEnd (bs : list Z) : list Z :=
  rev (strip_all (map (@rev Z) white_space) (List.length bs) (rev bs)).

Definition string_of_bytes (bs : list Z) : string :=
  string_of_list_ascii (map (fun b => ascii_of_N (Z.to_N b)) bs).

Definition trim (s : string) : string :=
  string_of_bytes (trimEnd (trimStart (SHA256.bytes_of s))).

(** [s.replace(/[<>]/g, '')]. *)
Fixpoint remove_angle_brackets (s : string) : string :=
  match s with
  | EmptyString => EmptyString
  | String a rest =>
      if Ascii.eqb a "<" || Ascii.eqb a ">" then remove_angle_brackets rest
      else String a (remove_angle_brackets rest)
  end.

Definition sanitizeInput (input : string) : string :=
  remove_angle_brackets (trim input).

End ValidationUtils.

Module FrontendUtils.

Inductive Color := success_color | error_color | warning_color | info_color.

Definition getVerificationStatusColor (status : string) : Color :=
  if String.eqb status "valid" then success_color
  else if String.eqb status "invalid" || String.eqb status "not_found"
          || String.eqb status "signature_mismatch" then error_color
  else if String.eqb status "expired" then warning_color
  else info_color.

Definition getVerificationStatusMessage (status : string) : string :=
  if String.eqb status "valid" then "Credential is valid and verified"
  else if String.eqb status "invalid" then "Credential is invalid"
  else if String.eqb status "expired" then "Credential has expired"
  else if String.eqb status "not_found" then "Credential not found in issuance records"
  else if String.eqb status "signature_mismatch" then "Credential signature is invalid"
  else "Unknown verification status".

End FrontendUtils.

(* ===================================================================== *)
(** ** A reference [Date]

    [parse] reads the Date Time String Format of ECMAScript the way the
    engine's reader for it does: a year of four digits, or a sign and six,
    then optionally [-MM] and [-DD], then optionally [T], [HH:mm], [:ss],
    a fraction, and [Z] or an offset. A date alone is UTC, a date with a
    time and no offset is local time, [local] minutes east of UTC. Strings
    outside the format go to the engine's own readers, which are not
    modelled: they are left an invalid date here. [format] is
    [toISOString]. Both serve to run the model on concrete inputs. *)

Module IsoDate.

Definition digit (a : ascii) : option Z :=
  let n := JSON.code a in
  if (48 <=? n) && (n <=? 57) then Some (n - 48) else None.

(** Days from 1970-01-01 to the civil date [y]-[m]-[d]. *)
Definition days_from_civil (y m d : Z) : Z :=
  let y' := if m <=? 2 then y - 1 else y in
  let era := y' / 400 in
  let yoe := y' - era * 400 in
  let mp := if 2 <? m then m - 3 else m + 9 in
  let doy := (153 * mp + 2) / 5 + d - 1 in
  let doe := yoe * 365 + yoe / 4 - yoe / 100 + doy in
  era * 146097 + doe - 719468.

Definition sep (c : ascii) (a : ascii) : bool := Ascii.eqb c a.

Definition in_range (lo x hi : Z) : bool := (lo <=? x) && (x <=? hi).

(** A run of digits at the front: its value, its length, and the rest. *)
Fixpoint numeral (acc : Z) (len : nat) (cs : list ascii) : Z * nat * list ascii :=
  match cs with
  | c :: rest =>
      match digit c with
      | Some d => numeral (10 * acc + d) (S len) rest
      | None => (acc, len, cs)
      end
  | [] => (acc, len, cs)
  end.

(** A number of exactly [n] digits at the front. *)
Definition field (n : nat) (cs : list ascii) : option (Z * list ascii) :=
  let '(v, len, rest) := numeral 0 0 cs in
  if Nat.eqb len n then Some (v, rest) else None.

(** The rest of the input when it starts with [c]. *)
Definition after (c : ascii) (cs : list ascii) : option (list ascii) :=
  match cs with
  | a :: rest => if sep c a then Some rest else None
  | [] => None
  end.

(** [[-+]YYYYYY] or [YYYY]. *)
Definition year (cs : list ascii) : option (Z * list ascii) :=
  match cs with
  | a :: rest =>
      if sep "+" a then field 6 rest
      else if sep "-" a then
        match field 6 rest with
        | Some (y, rest') => if y =? 0 then None else Some (- y, rest')
        | None => None
        end
      else field 4 cs
  | [] => None
  end.

(** [-NN] within [lo..hi] when the input goes on with a hyphen; [fallback]
    when it does not. *)
Definition hyphenated (lo hi fallback : Z) (cs : list ascii)
  : option (Z * bool * list ascii) :=
  match after "-" cs with
  | Some rest =>
      match field 2 rest with
      | Some (v, rest') => if in_range lo v hi then Some (v, true, rest') else None
      | None => None
      end
  | None => Some (fallback, false, cs)
  end.

(** Milliseconds of a fraction of one to nine digits: its first three. *)
Definition fraction (cs : list ascii) : option (Z * list ascii) :=
  let '(v, len, rest) := numeral 0 0 cs in
  if (1 <=? len)%nat && (len <=? 9)%nat
  then Some (if (len <=? 3)%nat then v * 10 ^ Z.of_nat (3 - len)
             else v / 10 ^ Z.of_nat (len - 3),
             rest)
  else None.

(** [Z], [+hh:mm], [-hh:mm], [+hhmm], [-hhmm] at the end of the input, in
    minutes east of UTC; nothing at all is local time. *)
Definition offset (local : Z) (cs : list ascii) : option Z :=
  match cs with
  | [] => Some local
  | a :: rest =>
      if sep "Z" a then
        match rest with [] => Some 0 | _ :: _ => None end
      else if sep "+" a || sep "-" a then
        let sign := if sep "+" a then 1 else -1 in
        let '(v, len, rest') := numeral 0 0 rest in
        if Nat.eqb len 4 then
          match rest' with
          | [] =>
              if in_range 0 (v / 100) 23 && in_range 0 (v mod 100) 59
              then Some (sign * ((v / 100) * 60 + v mod 100)) else None
          | _ :: _ => None
          end
        else if Nat.eqb len 2 then
          match after ":" rest' with
          | Some rest'' =>
              match field 2 rest'' with
              | Some (m, []) =>
                  if in_range 0 v 23 && in_range 0 m 59
                  then Some (sign * (v * 60 + m)) else None
              | _ => None
              end
          | None => None
          end
        else None
      else None
  end.

(** [HH:mm[:ss[.sss]]] and the offset, as milliseconds since the local
    midnight and minutes east of UTC. An hour of 24 is midnight at the
    day's end and nothing else. *)
Definition time (local : Z) (cs : list ascii) : option (Z * Z) :=
  match field 2 cs with
  | Some (h, rest) =>
      if in_range 0 h 24 then
        match after ":" rest with
        | Some rest =>
            match field 2 rest with
            | Some (mi, rest) =>
                if in_range 0 mi 59 && negb ((h =? 24) && (0 <? mi)) then
                  let seconds :=
                    match after ":" rest with
                    | Some rest =>
                        match field 2 rest with
                        | Some (sec, rest) =>
                            if in_range 0 sec 59 && negb ((h =? 24) && (0 <? sec))
                            then
                              match after "." rest with
                              | Some rest =>
                                  match fraction rest with
                                  | Some (ms, rest) =>
                                      if (h =? 24) && (0 <? ms) then None
                                      else Some (sec, ms, rest)
                                  | None => None
                                  end
                              | None => Some (sec, 0, rest)
                              end
                            else None
                        | None => None
                        end
                    | None => Some (0, 0, rest)
                    end in
                  match seconds with
                  | Some (sec, ms, rest) =>
                      match offset local rest with
                      | Some east => Some (((h * 60 + mi) * 60 + sec) * 1000 + ms, east)
                      | None => None
                      end
                  | None => None
                  end
                else None
            | None => None
            end
        | None => None
        end
      else None
  | None => None
  end.

(** The largest time value of a [Date]. *)
Definition max_time : Z := 8640000000000000.

Definition parse (local : Z) (s : string) : option Z :=
  match year (list_ascii_of_string s) with
  | Some (y, rest) =>
      match hyphenated 1 12 1 rest with
      | Some (m, has_month, rest) =>
          match (if has_month then hyphenated 1 31 1 rest
                 else Some (1, false, rest)) with
          | Some (d, _, rest) =>
              let clock :=
                match rest with
                | [] => Some (0, 0)
                | t :: rest' => if sep "T" t then time local rest' else None
                end in
              match clock with
              | Some (ms, east) =>
                  let value := days_from_civil y m d * 86400000 + ms - east * 60000 in
                  if in_range (- max_time) value max_time then Some value else None
              | None => None
              end
          | None => None
          end
      | None => None
      end
  | None => None
  end.

Fixpoint digits (n : nat) (x : Z) : string :=
  match n with
  | O => EmptyString
  | S k => String (JSON.hex_digit ((x / 10 ^ Z.of_nat k) mod 10)) (digits k x)
  end.

(** The civil date of day number [z]. *)
Definition civil_from_days (z : Z) : Z * Z * Z :=
  let z := z + 719468 in
  let era := z / 146097 in
  let doe := z - era * 146097 in
  let yoe := (doe - doe / 1460 + doe / 36524 - doe / 146096) / 365 in
  let doy := doe - (365 * yoe + yoe / 4 - yoe / 100) in
  let mp := (5 * doy + 2) / 153 in
  let d := doy - (153 * mp + 2) / 5 + 1 in
  let m := if mp <? 10 then mp + 3 else mp - 9 in
  let y := yoe + era * 400 in
  ((if m <=? 2 then y + 1 else y), m, d).

(** Four digits for the years 0 to 9999, a sign and six otherwise. *)
Definition format_year (y : Z) : string :=
  if in_range 0 y 9999 then digits 4 y
  else (if y <? 0 then "-" else "+") ++ digits 6 (Z.abs y).

Definition format (t : Z) : string :=
  let day := t / 86400000 in
  let r := t mod 86400000 in
  let '(y, m, d) := civil_from_days day in
  format_year y ++ "-" ++ digits 2 m ++ "-" ++ digits 2 d ++ "T"
  ++ digits 2 (r / 3600000) ++ ":" ++ digits 2 ((r / 60000) mod 60) ++ ":"
  ++ digits 2 ((r / 1000) mod 60) ++ "." ++ digits 3 (r mod 1000) ++ "Z".

End IsoDate.

(* ===================================================================== *)
(** ** How sqlite writes a number into a TEXT column

    The driver binds a [Date] as the REAL of its time value, and the TEXT
    affinity of the column turns that into text as [%!.15g] prints it: up
    to fifteen significant digits, always with a decimal point, in
    exponent form from 10^15 on. *)

Module SqliteText.

Definition natural (m : Z) : string := NilZero.string_of_uint (N.to_uint (Z.to_N m)).

Fixpoint drop_zeros (reversed : list ascii) : list ascii :=
  match reversed with
  | c :: rest => if Ascii.eqb c "0" then drop_zeros rest else reversed
  | [] => []
  end.

(** The digits after the point, without trailing zeros but never empty. *)
Definition decimals (ds : string) : string :=
  match rev (drop_zeros (rev (list_ascii_of_string ds))) with
  | [] => "0"
  | kept => string_of_list_ascii kept
  end.

Definition exponent_form (m : Z) : string :=
  let places := Z.of_nat (String.length (natural m)) in
  let unit := 10 ^ (places - 15) in
  let rounded := (m + unit / 2) / unit in
  let '(mantissa, power) :=
    if rounded <? 10 ^ 15 then (rounded, places - 1) else (rounded / 10, places) in
  match natural mantissa with
  | String first rest =>
      String first ("." ++ decimals rest) ++ "e+" ++ IsoDate.digits 2 power
  | EmptyString => EmptyString
  end.

Definition render (t : Z) : string :=
  let m := Z.abs t in
  (if t <? 0 then "-" else EmptyString)
  ++ (if m <? 10 ^ 15 then natural m ++ ".0" else exponent_form m).

End SqliteText.

(* ===================================================================== *)
(** ** Reading a quoted string back

    A reader for the body of a JSON string, used to show that the signed
    text determines the canonical fields. *)

Module JSONReader.

Definition unhex (a : ascii) : option Z :=
  let n := JSON.code a in
  if (48 <=? n) && (n <=? 57) then Some (n - 48)
  else if (97 <=? n) && (n <=? 102) then Some (n - 87)
  else None.

(** The character a two-character escape [\x] stands for. *)
Definition short (x : ascii) : option ascii :=
  if Ascii.eqb x "b" then Some "008"%char
  else if Ascii.eqb x "t" then Some "009"%char
  else if Ascii.eqb x "n" then Some "010"%char
  else if Ascii.eqb x "f" then Some "012"%char
  else if Ascii.eqb x "r" then Some "013"%char
  else if Ascii.eqb x "034" then Some "034"%char
  else if Ascii.eqb x JSON.backslash then Some JSON.backslash
  else None.

Definition push (a : ascii) (r : option (string * string)) : option (string * string) :=
  match r with
  | Some (body, after) => Some (String a body, after)
  | None => None
  end.

(** The characters up to the closing quote, and the text after it. *)
Fixpoint read_body (s : string) : option (string * string) :=
  match s with
  | EmptyString => None
  | String c rest =>
      if Ascii.eqb c "034" then Some (EmptyString, rest)
      else if Ascii.eqb c JSON.backslash then
        match rest with
        | EmptyString => None
        | String x rest1 =>
            if Ascii.eqb x "u" then
              match rest1 with
              | String z1 (String z2 (String h1 (String h2 rest2))) =>
                  match unhex z1, unhex z2, unhex h1, unhex h2 with
                  | Some 0, Some 0, Some hi, Some lo =>
                      push (ascii_of_N (Z.to_N (16 * hi + lo))) (read_body rest2)
                  | _, _, _, _ => None
                  end
              | _ => None
              end
            else
              match short x with
              | Some a => push a (read_body rest1)
              | None => None
              end
        end
      else push c (read_body rest)
  end.

End JSONReader.

(** The seven canonical fields by name. *)
Inductive CanonicalField :=
| F_id
| F_holder_name
| F_issuer
| F_issued_date
| F_credential_type
| F_expiry_date
| F_worker_id.


(** [{ ...c, [f]: v }]. *)
Definition set_field (f : CanonicalField) (v : string) (c : Credential) : Credential :=
  {| id := match f with F_id => v | _ => id c end;
     holder_name := match f with F_holder_name => v | _ => holder_name c end;
     issuer := match f with F_issuer => v | _ => issuer c end;
     issued_date := match f with F_issued_date => v | _ => issued_date c end;
     credential_type := match f with F_credential_type => v | _ => credential_type c end;
     expiry_date := match f with F_expiry_date => v | _ => expiry_date c end;
     signature := signature c;
     worker_id := match f with F_worker_id => v | _ => worker_id c end;
     created_at := created_at c;
     updated_at := updated_at c |}.

(** [{ ...credentialData, signature, created_at, updated_at }] with the
    signature the engine computes: a credential as issued. *)
Definition sealed (env : ProcessEnv) (d : CredentialData) (created updated : string)
  : Credential :=
  {| id := d_id d;
     holder_name := d_holder_name d;
     issuer := d_issuer d;
     issued_date := d_issued_date d;
     credential_type := d_credential_type d;
     expiry_date := d_expiry_date d;
     signature := CryptoUtils.generateCredentialSignature env d;
     worker_id := d_worker_id d;
     created_at := created;
     updated_at := updated |}.

(** [{ ...c, created_at, updated_at }]. *)
Definition with_timestamps (created updated : string) (c : Credential) : Credential :=
  {| id := id c;
     holder_name := holder_name c;
     issuer := issuer c;
     issued_date := issued_date c;
     credential_type := credential_type c;
     expiry_date := expiry_date c;
     signature := signature c;
     worker_id := worker_id c;
     created_at := created;
     updated_at := updated |}.

(** Two different texts with one SHA-256 digest. *)
Definition collide (x y : string) : Prop :=
  x <> y /\ SHA256.hex x = SHA256.hex y.

(* ===================================================================== *)
(** ** How an invocation of the verification workflow ends *)

(** The record an invocation builds when its locals end as [l]. *)
Definition verdict (rt : Runtime) (credential : Credential)
    (l : VerificationModel.Locals) : VerificationResult :=
  VerificationModel.verification_of
    (toISOString rt (start_time rt)) (worker_of rt) (uuidv4 rt) credential l.

(** The end of an invocation that asked the issuance service for [asked]
    and built [v]: with the database open, [v] is appended to the table and
    returned; with it closed, the save fails and nothing is stored. *)
Definition recorded (s : Service) (asked : list string) (v : VerificationResult)
  : Completion VerificationResult * Service :=
  match verifications s with
  | Some rows =>
      (Normal v,
       {| verifications := Some (rows ++ [v])%list;
          lookups := (lookups s ++ asked)%list |})
  | None =>
      (Throw (Error "Failed to save verification record"),
       {| verifications := None; lookups := (lookups s ++ asked)%list |})
  end.

(** The locals at the end of the [try]/[catch], by cases on the signature
    check and on how the lookup ended. *)
Definition classify (rt : Runtime) (net : Network) (credential : Credential)
  : VerificationModel.Locals :=
  let st status := VerificationModel.set_verificationStatus status VerificationModel.initial in
  if CryptoUtils.verifyCredentialSignature (process_env rt) credential then
    match net (id credential) with
    | Fulfilled true (Some issued) =>
        if VerificationModel.compareCredentials credential issued then
          let isExpired :=
            Date_lt (Date_parse rt (expiry_date credential)) (Some (check_time rt)) in
          {| VerificationModel.verificationStatus := if isExpired then expired else valid;
             VerificationModel.isValid := negb isExpired;
             VerificationModel.isExpired := isExpired;
             VerificationModel.issuerWorkerId := Some (worker_id issued);
             VerificationModel.issuedDate := Some (issued_date issued) |}
        else st invalid
    | Fulfilled _ _ => st not_found
    | Rejected status _ =>
        if IssuanceServiceClient.is_404 status then st not_found else st invalid
    end
  else st signature_mismatch.

(** The lookups an invocation makes. *)
Definition asked (rt : Runtime) (credential : Credential) : list string :=
  if CryptoUtils.verifyCredentialSignature (process_env rt) credential
  then [id credential] else [].

(** The condition of the duplicate check's SELECT. *)
Definition same_holder_and_type (request : CreateCredentialRequest) (row : Credential)
  : bool :=
  String.eqb (holder_name row) (req_holder_name request)
  && String.eqb (credential_type row) (req_credential_type request).

(** The lookup failed with anything but an explicit 404: another status, a
    transport error, a timeout. *)
Definition lookup_fails (o : AxiosOutcome) : Prop :=
  exists status message,
    o = Rejected status message /\ IssuanceServiceClient.is_404 status = false.

(* ===================================================================== *)
(** ** Concrete surroundings, after the services' test suites *)

Definition test_env : ProcessEnv :=
  {| JWT_SECRET := Some "test-secret";
     WORKER_ID := Some "test-verification-worker-1" |}.

(** A runtime whose clock stands at 2025-06-01T00:00:00.000Z, in the UTC
    time zone. *)
Definition test_runtime : Runtime :=
  {| process_env := test_env;
     Date_parse := IsoDate.parse 0;
     toISOString := IsoDate.format;
     sqlite_date_text := SqliteText.render;
     start_time := 1748736000000;
     check_time := 1748736000000;
     reply_time := 1748736000000;
     uuidv4 := "9b2e4c1a-7d3f-4e8b-a1c2-5f6d7e8f9a0b";
     random_1000 := 7;
     handler_random_1000 := 7 |}.

Definition john_doe_data : CredentialData :=
  {| d_id := "550e8400-e29b-41d4-a716-446655440000";
     d_holder_name := "John Doe";
     d_issuer := "Kube Credential Authority";
     d_issued_date := "2024-01-01T00:00:00.000Z";
     d_credential_type := "certificate";
     d_expiry_date := "2026-01-01T00:00:00.000Z";
     d_worker_id := "issuer-worker-1" |}.

(** [validCredential] of the integration test. *)
Definition john_doe : Credential :=
  sealed test_env john_doe_data "2024-01-01T00:00:00.000Z" "2024-01-01T00:00:00.000Z".

(** Its expired sibling of the test suite. *)
Definition john_doe_2020 : Credential :=
  sealed test_env
    {| d_id := d_id john_doe_data;
       d_holder_name := d_holder_name john_doe_data;
       d_issuer := d_issuer john_doe_data;
       d_issued_date := d_issued_date john_doe_data;
       d_credential_type := d_credential_type john_doe_data;
       d_expiry_date := "2020-01-01T00:00:00.000Z";
       d_worker_id := d_worker_id john_doe_data |}
    "2024-01-01T00:00:00.000Z" "2024-01-01T00:00:00.000Z".


(** An issuance service that holds exactly [c]. *)
Definition serving (c : Credential) : Network :=
  fun wanted =>
    if String.eqb wanted (id c) then Fulfilled true (Some c)
    else Rejected (Some 404%nat) "Request failed with status code 404".

(** An issuance service that holds nothing. *)
Definition serving_nothing : Network :=
  fun _ => Rejected (Some 404%nat) "Request failed with status code 404".

(** An issuance service that does not answer in time. *)
Definition unreachable : Network :=
  fun _ => Rejected None "timeout of 10000ms exceeded".

Definition fresh_service : Service :=
  {| verifications := Some []; lookups := [] |}.

(** A service whose database handle is [null]. *)
Definition disconnected_service : Service :=
  {| verifications := None; lookups := [] |}.

(* ===================================================================== *)
(** ** Notions the further properties are stated with *)

(** A lower-case hexadecimal digit. *)
Definition hex_char (a : ascii) : bool :=
  let n := JSON.code a in
  ((48 <=? n) && (n <=? 57)) || ((97 <=? n) && (n <=? 102)).

(** The value [CredentialModel.create] takes for the expiry. *)
Definition expiry_of (rt : Runtime) (request : CreateCredentialRequest) : ExpiryInput :=
  CredentialModel.expiry_or (req_expiry_date request)
    (toISOString rt (check_time rt + CredentialModel.year_ms)).

(** The credential [CredentialModel.create] returns for [request]. *)
Definition new_credential (rt : Runtime) (request : CreateCredentialRequest)
  : Credential :=
  sealed (process_env rt)
    {| d_id := uuidv4 rt;
       d_holder_name := req_holder_name request;
       d_issuer := "Kube Credential Authority";
       d_issued_date := toISOString rt (start_time rt);
       d_credential_type := req_credential_type request;
       d_expiry_date := CredentialModel.expiry_json rt (expiry_of rt request);
       d_worker_id := worker_of rt |}
    (toISOString rt (start_time rt)) (toISOString rt (start_time rt)).

(** The row it inserts. *)
Definition new_row (rt : Runtime) (request : CreateCredentialRequest) : Credential :=
  set_field F_expiry_date (CredentialModel.expiry_bound rt (expiry_of rt request))
    (new_credential rt request).

(** The request carries a [Date] for its expiry. *)
Definition dated (request : CreateCredentialRequest) : bool :=
  match req_expiry_date request with
  | Some (ExpiryDate _) => true
  | _ => false
  end.

(** No request of the sequence that passed validation carries a [Date]. *)
Definition undated_requests {A}
    (requests : list (A * Validation CreateCredentialRequest)) : Prop :=
  forall rq request, In rq requests -> snd rq = Valid request -> dated request = false.

(** [POST /api/credentials] behind [asyncHandler] and [errorHandler]. *)
Definition post_credentials (rt : Runtime)
    (validated : Validation CreateCredentialRequest) (db : Database.t Credential)
  : HttpResponse IssueData * Database.t Credential :=
  ErrorHandler.asyncHandler rt (CredentialController.issueCredential rt validated) db.

(** [GET /api/credentials/:id] behind the same. *)
Definition get_credential (rt : Runtime) (wanted : string) (db : Database.t Credential)
  : HttpResponse CredentialView * Database.t Credential :=
  ErrorHandler.asyncHandler rt (CredentialController.getCredential rt wanted) db.

(** [POST /api/verifications] behind the same. *)
Definition post_verifications (rt : Runtime) (net : Network)
    (validated : Validation Credential) (s : Service)
  : HttpResponse VerificationData * Service :=
  ErrorHandler.asyncHandler rt (VerificationController.verifyCredential rt net validated) s.

(** [GET /api/verifications/:id] behind the same. *)
Definition get_verification (rt : Runtime) (wanted : string) (s : Service)
  : HttpResponse VerificationResult * Service :=
  ErrorHandler.asyncHandler rt (VerificationController.getVerification rt wanted) s.

(** The store after a sequence of issuance requests, served one after
    another, each in its own runtime. *)
Definition issue_all
    (requests : list (Runtime * Validation CreateCredentialRequest))
    (db : Database.t Credential) : Database.t Credential :=
  fold_left (fun db rq => snd (post_credentials (fst rq) (snd rq) db)) requests db.

(** The service after a sequence of verification requests. *)
Definition verify_all
    (requests : list (Runtime * Network * Validation Credential))
    (s : Service) : Service :=
  fold_left
    (fun s rq => snd (post_verifications (fst (fst rq)) (snd (fst rq)) (snd rq) s))
    requests s.

Definition holder_and_type (c : Credential) : string * string :=
  (holder_name c, credential_type c).

(** Distinct ids, and one row per holder and type. *)
Definition unique_store (rows : list Credential) : Prop :=
  NoDup (map id rows) /\ NoDup (map holder_and_type rows).

(** A network that carries every path-safe id to the issuance worker and
    back; what becomes of other ids plays no part. *)
Definition wire (issuer_rt : Runtime) (db : Database.t Credential) : Network :=
  fun wanted =>
    match issuance_endpoint issuer_rt db wanted with
    | Some outcome => outcome
    | None => Rejected None "Request failed"
    end.





(** Distinct ids, one row per holder and type, and every signature
    verifying under the secret. *)
Definition well_formed_store (env : ProcessEnv) (rows : list Credential) : Prop :=
  NoDup (map id rows) /\
  NoDup (map holder_and_type rows) /\
  Forall (fun c => CryptoUtils.verifyCredentialSignature env c = true) rows.

(** The 201 answer of [issueCredential] for the new credential [c]. *)
Definition created_response (rt : Runtime) (c : Credential) : HttpResponse IssueData :=
  {| status := 201;
     body := {| success := true;
                message := "Credential issued by " ++ handler_worker_of rt;
                data := Some (Issued c);
                response_worker_id := handler_worker_of rt;
                timestamp := toISOString rt (reply_time rt) |} |}.

(** Its 409 answer when [existing] is found. *)
Definition conflict_response (rt : Runtime) (request : CreateCredentialRequest)
    (existing : Credential) : HttpResponse IssueData :=
  {| status := 409;
     body := {| success := false;
                message := "Credential of type '" ++ req_credential_type request
                           ++ "' already issued for " ++ req_holder_name request;
                data := Some (AlreadyIssued (id existing) (issued_date existing)
                                            (worker_id existing));
                response_worker_id := handler_worker_of rt;
                timestamp := toISOString rt (reply_time rt) |} |}.

(** What [errorHandler] answers for [AppError(message, code)]. *)
Definition error_response {T} (rt : Runtime) (code : nat) (text : string)
  : HttpResponse T :=
  {| status := code;
     body := {| success := false;
                message := text;
                data := None;
                response_worker_id := worker_or_unknown rt;
                timestamp := toISOString rt (reply_time rt) |} |}.

(** The 200 answer of [getCredential] for the stored credential [c]. *)
Definition credential_response (rt : Runtime) (c : Credential)
  : HttpResponse CredentialView :=
  {| status := 200;
     body := {| success := true;
                message := "Credential retrieved successfully";
                data := Some {| view_credential := c;
                                view_is_valid := CredentialModel.verifyCredential rt c;
                                view_is_expired := CredentialModel.isExpired rt c |};
                response_worker_id := worker_or_unknown rt;
                timestamp := toISOString rt (reply_time rt) |} |}.

(** The 200 answer of [VerificationController.verifyCredential] for the
    result [v]. *)
Definition verification_response (rt : Runtime) (v : VerificationResult)
  : HttpResponse VerificationData :=
  {| status := 200;
     body := {| success := true;
                message := "Credential verification completed by " ++ handler_worker_of rt;
                data := Some
                  {| r_verification_id := v_id v;
                     r_credential_id := credential_id v;
                     r_is_valid := is_valid v;
                     r_is_expired := is_expired v;
                     r_verification_status := verification_status v;
                     r_verified_by := verified_by v;
                     r_verified_at := verified_at v;
                     r_issuer_worker_id := issuer_worker_id v;
                     r_issued_date := v_issued_date v |};
                response_worker_id := handler_worker_of rt;
                timestamp := toISOString rt (reply_time rt) |} |}.

(** The 400 answer of a handler whose validation failed. *)
Definition validation_response {T} (rt : Runtime) (details : list string)
  : HttpResponse T :=
  {| status := 400;
     body := {| success := false;
                message := "Validation error: " ++ String.concat ", " details;
                data := None;
                response_worker_id := handler_worker_of rt;
                timestamp := toISOString rt (reply_time rt) |} |}.

(** The 200 answer of [getVerification] for the stored record [v]. *)
Definition stored_verification_response (rt : Runtime) (v : VerificationResult)
  : HttpResponse VerificationResult :=
  {| status := 200;
     body := {| success := true;
                message := "Verification retrieved successfully";
                data := Some v;
                response_worker_id := worker_or_unknown rt;
                timestamp := toISOString rt (reply_time rt) |} |}.

(** The requests of a sequence that passed validation. *)
Definition validated_count {A B} (requests : list (A * Validation B)) : nat :=
  List.length
    (filter (fun rq => match snd rq with Valid _ => true | Invalid _ => false end)
            requests).

Arguments CryptoUtils.verifyCredentialSignature : simpl never.
Arguments CryptoUtils.generateCredentialSignature : simpl never.

(* ===================================================================== *)
(** * Properties *)

(** ** Test vectors of the hash *)

Example sha256_abc :
  SHA256.hex "abc" = "ba7816bf8f01cfea414140de5dae2223b00361a396177a9cb410ff61f20015ad".
Proof. vm_compute. reflexivity. Qed.

Example sha256_empty :
  SHA256.hex EmptyString = "e3b0c44298fc1c149afbf4c8996fb92427ae41e4649b934ca495991b7852b855".
Proof. vm_compute. reflexivity. Qed.

(** ** The serialization determines the fields *)

Section Serialization.

Lemma append_assoc (a b c : string) : (a ++ b) ++ c = a ++ (b ++ c).
Proof. induction a as [|x a IH]; simpl; [reflexivity | now rewrite IH]. Qed.

Lemma append_cancel_l (p x y : string) : p ++ x = p ++ y -> x = y.
Proof.
  induction p as [|a p IH]; simpl; intros H; [exact H|].
  injection H as H. now apply IH.
Qed.

Lemma read_escape (a : ascii) (rest : string) :
  JSONReader.read_body (JSON.escape a ++ rest)
  = JSONReader.push a (JSONReader.read_body rest).
Proof.
  destruct a as [[] [] [] [] [] [] [] []]; reflexivity.
Qed.

Lemma read_escape_all (s after : string) :
  JSONReader.read_body (JSON.escape_all s ++ dquote ++ after) = Some (s, after).
Proof.
  induction s as [|a s IH]; [reflexivity|].
  cbn [JSON.escape_all]. rewrite append_assoc, read_escape, IH. reflexivity.
Qed.

Lemma escape_all_cancel (s s' r r' : string) :
  JSON.escape_all s ++ dquote ++ r = JSON.escape_all s' ++ dquote ++ r' ->
  s = s' /\ r = r'.
Proof.
  intros H. apply (f_equal JSONReader.read_body) in H.
  rewrite !read_escape_all in H. injection H as -> ->. now split.
Qed.

Lemma member_cancel (k v v' r r' : string) :
  JSON.member k v ++ r = JSON.member k v' ++ r' -> v = v' /\ r = r'.
Proof.
  unfold JSON.member, JSON.quote. rewrite !append_assoc. intros H.
  do 5 apply append_cancel_l in H.
  now apply escape_all_cancel.
Qed.

Lemma members_cancel (kvs kvs' : list (string * string)) (t t' : string) :
  map fst kvs = map fst kvs' ->
  JSON.members kvs ++ t = JSON.members kvs' ++ t' ->
  map snd kvs = map snd kvs' /\ t = t'.
Proof.
  revert kvs'. induction kvs as [|[k v] rest IH]; intros [|[k' v'] rest'] Hk H;
    try discriminate Hk.
  - now split.
  - cbn [map fst] in Hk. injection Hk as <- Hk.
    destruct rest as [|kv rest]; destruct rest' as [|kv' rest']; try discriminate Hk.
    + cbn [JSON.members] in H. apply member_cancel in H as [-> ->]. now split.
    + change (JSON.members ((k, v) :: kv :: rest))
        with (JSON.member k v ++ "," ++ JSON.members (kv :: rest)) in H.
      change (JSON.members ((k, v') :: kv' :: rest'))
        with (JSON.member k v' ++ "," ++ JSON.members (kv' :: rest')) in H.
      rewrite !append_assoc in H. apply member_cancel in H as [-> H].
      apply (append_cancel_l ",") in H.
      destruct (IH (kv' :: rest') Hk H) as [Hs Ht].
      split; [|exact Ht].
      change (v' :: map snd (kv :: rest) = v' :: map snd (kv' :: rest')).
      now rewrite Hs.
Qed.

(** The text that is hashed determines the seven canonical fields. *)
Lemma signed_text_inj (env : ProcessEnv) (d d' : CredentialData) :
  CryptoUtils.signed_text env d = CryptoUtils.signed_text env d' -> d = d'.
Proof.
  unfold CryptoUtils.signed_text, CryptoUtils.payload, JSON.stringify.
  rewrite !append_assoc. intros H. apply (append_cancel_l "{") in H.
  apply members_cancel in H as [H _]; [|reflexivity].
  destruct d, d'. cbn in H. now inversion H.
Qed.

End Serialization.

(** ** The verification workflow, path by path *)

Section Workflow.

Variable rt : Runtime.
Variable net : Network.

Lemma saveVerification_run (v : VerificationResult) (s : Service) :
  VerificationModel.saveVerification v s
  = match verifications s with
    | Some rows =>
        (Normal tt, {| verifications := Some (rows ++ [v])%list; lookups := lookups s |})
    | None => (Throw (Error "Failed to save verification record"), s)
    end.
Proof.
  destruct s as [[rows|] asked0]; reflexivity.
Qed.

(** The client, by cases on the outcome of the GET. *)
Lemma getCredential_run (wanted : string) (s : Service) :
  IssuanceServiceClient.getCredential net wanted s
  = (match net wanted with
     | Fulfilled true (Some issued) => Normal (Some issued)
     | Fulfilled _ _ => Normal None
     | Rejected status message =>
         if IssuanceServiceClient.is_404 status then Normal None
         else Throw (Error ("Failed to fetch credential from issuance service: "
                            ++ message))
     end,
     {| verifications := verifications s; lookups := (lookups s ++ [wanted])%list |}).
Proof.
  unfold IssuanceServiceClient.getCredential, IssuanceServiceClient.client_get,
    try_catch, bind.
  destruct (net wanted) as [[] [issued|] | status message]; cbn; try reflexivity.
  destruct (IssuanceServiceClient.is_404 status); reflexivity.
Qed.

(** The whole function: it ends as [recorded] says, on the record built
    from the locals [classify] computes. *)
Lemma verifyCredential_run (credential : Credential) (s : Service) :
  VerificationModel.verifyCredential rt net credential s
  = recorded s (asked rt credential) (verdict rt credential (classify rt net credential)).
Proof.
  unfold VerificationModel.verifyCredential, recorded, asked, classify, verdict,
    VerificationModel.with_locals, VerificationModel.await, zoom, try_catch, bind.
  destruct (CryptoUtils.verifyCredentialSignature (process_env rt) credential); cbn.
  - rewrite getCredential_run.
    destruct (net (id credential)) as [[] [issued|] | status message]; cbn.
    + destruct (VerificationModel.compareCredentials credential issued); cbn.
      * destruct (Date_lt _ _); cbn; rewrite saveVerification_run; cbn;
          destruct (verifications s); reflexivity.
      * rewrite saveVerification_run; cbn; destruct (verifications s); reflexivity.
    + rewrite saveVerification_run; cbn; destruct (verifications s); reflexivity.
    + rewrite saveVerification_run; cbn; destruct (verifications s); reflexivity.
    + rewrite saveVerification_run; cbn; destruct (verifications s); reflexivity.
    + destruct (IssuanceServiceClient.is_404 status); cbn;
        rewrite saveVerification_run; cbn; destruct (verifications s); reflexivity.
  - rewrite saveVerification_run; cbn.
    destruct s as [[rows|] asked0]; cbn; rewrite ?app_nil_r; reflexivity.
Qed.

End Workflow.

(** ** The shape of a digest *)

Section Digest.

Lemma string_length_append (a b : string) :
  String.length (a ++ b) = (String.length a + String.length b)%nat.
Proof. induction a as [|x a IH]; simpl; [reflexivity | now rewrite IH]. Qed.

Lemma compress_length (h block : list Z) :
  List.length h = 8%nat -> List.length (SHA256.compress h block) = 8%nat.
Proof.
  intros Hh. unfold SHA256.compress.
  rewrite length_map, length_combine, Hh. reflexivity.
Qed.

Lemma blocks_length (fuel : nat) (h bs : list Z) :
  List.length h = 8%nat -> List.length (SHA256.blocks fuel h bs) = 8%nat.
Proof.
  revert h bs. induction fuel as [|k IH]; intros h bs Hh; [exact Hh|].
  destruct bs as [|b bs]; [exact Hh|].
  cbn [SHA256.blocks]. apply IH. now apply compress_length.
Qed.

Lemma digest_length (msg : list Z) : List.length (SHA256.digest msg) = 8%nat.
Proof. unfold SHA256.digest. now apply blocks_length. Qed.

Lemma hex_digit_is_hex (n : Z) : 0 <= n < 16 -> hex_char (JSON.hex_digit n) = true.
Proof.
  intros Hn. rewrite <- (Z2Nat.id n) by lia.
  assert (Hk : (Z.to_nat n < 16)%nat) by lia.
  revert Hk. generalize (Z.to_nat n) as k. intros k Hk.
  do 16 (destruct k as [|k]; [reflexivity|]). lia.
Qed.

Lemma hex_word_shape (n : nat) (x : Z) :
  String.length (SHA256.hex_word n x) = n /\
  Forall (fun a => hex_char a = true) (list_ascii_of_string (SHA256.hex_word n x)).
Proof.
  induction n as [|k [IHlen IHhex]]; [split; [reflexivity | constructor]|].
  cbn [SHA256.hex_word String.length list_ascii_of_string]. split.
  - now rewrite IHlen.
  - constructor; [|exact IHhex].
    apply hex_digit_is_hex. apply Z.mod_pos_bound. lia.
Qed.

Lemma list_ascii_append (a b : string) :
  list_ascii_of_string (a ++ b) = (list_ascii_of_string a ++ list_ascii_of_string b)%list.
Proof. induction a as [|x a IH]; simpl; [reflexivity | now rewrite IH]. Qed.

Lemma concat_words_shape (ws : list Z) :
  let text := String.concat EmptyString (map (SHA256.hex_word 8) ws) in
  String.length text = (8 * List.length ws)%nat /\
  Forall (fun a => hex_char a = true) (list_ascii_of_string text).
Proof.
  induction ws as [|w ws [IHlen IHhex]]; [split; [reflexivity | constructor]|].
  destruct (hex_word_shape 8 w) as [Hlen Hhex].
  destruct ws as [|w' ws].
  - cbn [map String.concat List.length]. split; [exact Hlen | exact Hhex].
  - change (String.concat EmptyString (map (SHA256.hex_word 8) (w :: w' :: ws)))
      with (SHA256.hex_word 8 w
            ++ EmptyString
            ++ String.concat EmptyString (map (SHA256.hex_word 8) (w' :: ws))).
    cbn [append]. split.
    + rewrite string_length_append, Hlen. cbn zeta in IHlen. rewrite IHlen.
      cbn [List.length]. lia.
    + rewrite list_ascii_append. apply Forall_app. split; [exact Hhex | exact IHhex].
Qed.

Lemma hex_shape (s : string) :
  String.length (SHA256.hex s) = 64%nat /\
  Forall (fun a => hex_char a = true) (list_ascii_of_string (SHA256.hex s)).
Proof.
  unfold SHA256.hex.
  destruct (concat_words_shape (SHA256.digest (SHA256.bytes_of s))) as [Hlen Hhex].
  cbn zeta in Hlen, Hhex. rewrite digest_length in Hlen. split; assumption.
Qed.

End Digest.

(** ** Digests are few, texts are many *)

Section Pigeonhole.

Context {A : Type} (dec : forall x y : A, {x = y} + {x <> y}).



End Pigeonhole.






(** ** The signature engine *)

Lemma verifyCredentialSignature_spec (env : ProcessEnv) (c : Credential) :
  CryptoUtils.verifyCredentialSignature env c = true
  <-> signature c = CryptoUtils.generateCredentialSignature env (canonical c).
Proof.
  unfold CryptoUtils.verifyCredentialSignature, canonical.
  rewrite String.eqb_eq. split; intros H; now symmetry.
Qed.





(** ** The verification state machine *)

(** C2. A submitted credential whose stored signature differs from the
    keyed hash of its own canonical fields ends as signature_mismatch, and
    the invocation makes no lookup: the issuance service is asked for
    nothing. The invocation ends as [recorded] describes, on a record
    with that status. *)
Theorem signature_mismatch_skips_lookup
    (rt : Runtime) (net : Network) (c : Credential) (s : Service) :
  signature c <> CryptoUtils.generateCredentialSignature (process_env rt) (canonical c) ->
  exists v,
    VerificationModel.verifyCredential rt net c s = recorded s [] v /\
    lookups (snd (VerificationModel.verifyCredential rt net c s)) = lookups s /\
    verification_status v = signature_mismatch /\
    is_valid v = false /\ is_expired v = false /\
    issuer_worker_id v = None /\ v_issued_date v = None.
Proof.
  intros Hsig.
  assert (E : CryptoUtils.verifyCredentialSignature (process_env rt) c = false).
  { destruct (CryptoUtils.verifyCredentialSignature (process_env rt) c) eqn:E;
      [|reflexivity].
    apply verifyCredentialSignature_spec in E. contradiction. }
  rewrite verifyCredential_run. unfold asked, classify. rewrite E.
  eexists. split; [reflexivity|].
  split; [|repeat split].
  unfold recorded. destruct (verifications s); cbn; apply app_nil_r.
Qed.

Lemma signature_mismatch_skips_lookup_witness :
  let forged := set_field F_holder_name "Jane Doe" john_doe in
  exists v,
    VerificationModel.verifyCredential test_runtime (serving john_doe) forged fresh_service
    = recorded fresh_service [] v /\
    lookups (snd (VerificationModel.verifyCredential test_runtime (serving john_doe)
                    forged fresh_service)) = [] /\
    verification_status v = signature_mismatch /\
    is_valid v = false /\ is_expired v = false /\
    issuer_worker_id v = None /\ v_issued_date v = None.
Proof.
  apply (signature_mismatch_skips_lookup test_runtime (serving john_doe)
           (set_field F_holder_name "Jane Doe" john_doe) fresh_service).
  vm_compute. discriminate.
Defined.

Lemma compareCredentials_spec (c1 c2 : Credential) :
  VerificationModel.compareCredentials c1 c2 = true
  <-> id c1 = id c2 /\ holder_name c1 = holder_name c2 /\ issuer c1 = issuer c2
      /\ issued_date c1 = issued_date c2 /\ credential_type c1 = credential_type c2
      /\ expiry_date c1 = expiry_date c2 /\ signature c1 = signature c2.
Proof.
  unfold VerificationModel.compareCredentials.
  rewrite !andb_true_iff, !String.eqb_eq. tauto.
Qed.

(** C3. The field-equality step holds exactly when id, holder_name,
    issuer, issued_date, credential_type, expiry_date and signature of the
    submitted credential equal those of the record the issuance service
    returned; when any of the seven differs, the invocation ends (as
    [recorded] describes) on a record with status invalid and is_valid
    false. *)
Theorem field_equality_step
    (rt : Runtime) (net : Network) (c issued : Credential) (s : Service) :
  (VerificationModel.compareCredentials c issued = true
   <-> id c = id issued /\ holder_name c = holder_name issued
       /\ issuer c = issuer issued /\ issued_date c = issued_date issued
       /\ credential_type c = credential_type issued
       /\ expiry_date c = expiry_date issued /\ signature c = signature issued)
  /\
  (CryptoUtils.verifyCredentialSignature (process_env rt) c = true ->
   net (id c) = Fulfilled true (Some issued) ->
   (id c <> id issued \/ holder_name c <> holder_name issued
    \/ issuer c <> issuer issued \/ issued_date c <> issued_date issued
    \/ credential_type c <> credential_type issued
    \/ expiry_date c <> expiry_date issued \/ signature c <> signature issued) ->
   exists v,
     VerificationModel.verifyCredential rt net c s = recorded s [id c] v /\
     verification_status v = invalid /\ is_valid v = false).
Proof.
  split; [apply compareCredentials_spec|].
  intros Hsig Hnet Hdiff.
  assert (E : VerificationModel.compareCredentials c issued = false).
  { destruct (VerificationModel.compareCredentials c issued) eqn:E; [|reflexivity].
    apply compareCredentials_spec in E. tauto. }
  rewrite verifyCredential_run. unfold asked, classify. rewrite Hsig, Hnet, E.
  eexists. repeat split.
Qed.

Lemma field_equality_step_witness :
  let issued := set_field F_expiry_date "2030-01-01T00:00:00.000Z" john_doe in
  exists v,
    VerificationModel.verifyCredential test_runtime (serving issued) john_doe fresh_service
    = recorded fresh_service [id john_doe] v /\
    verification_status v = invalid /\ is_valid v = false.
Proof.
  intros issued.
  apply (proj2 (field_equality_step test_runtime (serving issued) john_doe issued
                  fresh_service)).
  - vm_compute. reflexivity.
  - vm_compute. reflexivity.
  - do 5 right. left. vm_compute. discriminate.
Defined.

(** What the issuance service itself writes: a row with a non-empty
    worker_id, and an answer whose signature verifies. *)
Lemma worker_of_truthy (rt : Runtime) : truthy (worker_of rt) = true.
Proof.
  unfold worker_of, or_default.
  destruct (WORKER_ID (process_env rt)) as [[|a w]|]; reflexivity.
Qed.

Lemma created_credential_well_formed
    (rt : Runtime) (request : CreateCredentialRequest)
    (db db' : Database.t Credential) (c : Credential) :
  CredentialModel.create rt request db = (Normal c, db') ->
  truthy (worker_id c) = true /\
  CryptoUtils.verifyCredentialSignature (process_env rt) c = true /\
  exists rows row,
    db = Some rows /\ db' = Some (rows ++ [row])%list /\
    worker_id row = worker_id c /\ issued_date row = issued_date c.
Proof.
  unfold CredentialModel.create, try_catch, bind, Database.run_insert, ret, throw.
  destruct db as [rows|]; [|discriminate].
  destruct (CredentialModel.credentials_violates rows _); [discriminate|].
  intros H. injection H as <- <-.
  split; [apply worker_of_truthy|].
  split; [apply verifyCredentialSignature_spec; reflexivity|].
  exists rows. eexists. repeat split.
Qed.

(** The expiration step on any authoritative record: each of the two
    issuer fields is spread into the result when it is truthy. *)
Lemma expiration_step_run
    (rt : Runtime) (net : Network) (c issued : Credential) (s : Service) :
  CryptoUtils.verifyCredentialSignature (process_env rt) c = true ->
  net (id c) = Fulfilled true (Some issued) ->
  VerificationModel.compareCredentials c issued = true ->
  let late := Date_lt (Date_parse rt (expiry_date issued)) (Some (check_time rt)) in
  exists v,
    VerificationModel.verifyCredential rt net c s = recorded s [id c] v /\
    verification_status v = (if late then expired else valid) /\
    is_valid v = negb late /\
    is_expired v = late /\
    issuer_worker_id v = spread_if_truthy (Some (worker_id issued)) /\
    v_issued_date v = spread_if_truthy (Some (issued_date issued)).
Proof.
  intros Hsig Hnet Hcmp late.
  rewrite verifyCredential_run. unfold asked, classify. rewrite Hsig, Hnet, Hcmp.
  apply compareCredentials_spec in Hcmp.
  destruct Hcmp as (_ & _ & _ & _ & _ & Hexp & _). rewrite Hexp. fold late.
  eexists. split; [reflexivity|]. cbn. repeat split.
Qed.

(** C4. An invocation that passes the signature check and the
    field-equality check, against an authoritative record as the issuance
    service writes them (with a worker_id and an issued_date), compares the
    authoritative expiry_date with the clock: if it is earlier the result
    is expired, not valid and flagged expired; otherwise it is valid and
    not flagged. The result's issuer_worker_id and issued_date are those
    of the authoritative record. *)
Theorem expiration_step
    (rt : Runtime) (net : Network) (c issued : Credential) (s : Service) :
  CryptoUtils.verifyCredentialSignature (process_env rt) c = true ->
  net (id c) = Fulfilled true (Some issued) ->
  VerificationModel.compareCredentials c issued = true ->
  worker_id issued <> EmptyString ->
  issued_date issued <> EmptyString ->
  let late := Date_lt (Date_parse rt (expiry_date issued)) (Some (check_time rt)) in
  exists v,
    VerificationModel.verifyCredential rt net c s = recorded s [id c] v /\
    verification_status v = (if late then expired else valid) /\
    is_valid v = negb late /\
    is_expired v = late /\
    issuer_worker_id v = Some (worker_id issued) /\
    v_issued_date v = Some (issued_date issued).
Proof.
  intros Hsig Hnet Hcmp Hworker Hdate late.
  destruct (expiration_step_run rt net c issued s Hsig Hnet Hcmp)
    as (v & Hrun & Hst & Hvalid & Hexp & Hw & Hd).
  exists v. repeat split; try assumption.
  - rewrite Hw. destruct (worker_id issued); [contradiction | reflexivity].
  - rewrite Hd. destruct (issued_date issued); [contradiction | reflexivity].
Qed.

Lemma expiration_step_witness :
  (exists v,
     VerificationModel.verifyCredential test_runtime (serving john_doe_2020) john_doe_2020
       fresh_service
     = recorded fresh_service [id john_doe_2020] v /\
     verification_status v = expired /\
     is_valid v = false /\
     is_expired v = true /\
     issuer_worker_id v = Some "issuer-worker-1" /\
     v_issued_date v = Some "2024-01-01T00:00:00.000Z") /\
  (exists v,
     VerificationModel.verifyCredential test_runtime (serving john_doe) john_doe
       fresh_service
     = recorded fresh_service [id john_doe] v /\
     verification_status v = valid /\
     is_valid v = true /\
     is_expired v = false /\
     issuer_worker_id v = Some "issuer-worker-1" /\
     v_issued_date v = Some "2024-01-01T00:00:00.000Z").
Proof.
  split.
  - apply (expiration_step test_runtime (serving john_doe_2020) john_doe_2020
             john_doe_2020 fresh_service).
    + vm_compute. reflexivity.
    + vm_compute. reflexivity.
    + vm_compute. reflexivity.
    + vm_compute. discriminate.
    + vm_compute. discriminate.
  - apply (expiration_step test_runtime (serving john_doe) john_doe john_doe
             fresh_service).
    + vm_compute. reflexivity.
    + vm_compute. reflexivity.
    + vm_compute. reflexivity.
    + vm_compute. discriminate.
    + vm_compute. discriminate.
Defined.

(** C5. A submitted credential with a self-consistent signature, for whose
    id the issuance service answers 404, ends (as [recorded] describes,
    after that one lookup) on a record with status not_found, is_valid
    false and neither issuer_worker_id nor issued_date. *)
Theorem unknown_credential_not_found
    (rt : Runtime) (net : Network) (c : Credential) (s : Service) (message : string) :
  CryptoUtils.verifyCredentialSignature (process_env rt) c = true ->
  net (id c) = Rejected (Some 404%nat) message ->
  exists v,
    VerificationModel.verifyCredential rt net c s = recorded s [id c] v /\
    verification_status v = not_found /\
    is_valid v = false /\ is_expired v = false /\
    issuer_worker_id v = None /\ v_issued_date v = None.
Proof.
  intros Hsig Hnet.
  rewrite verifyCredential_run. unfold asked, classify. rewrite Hsig, Hnet.
  eexists. repeat split.
Qed.

Lemma unknown_credential_not_found_witness :
  exists v,
    VerificationModel.verifyCredential test_runtime serving_nothing john_doe fresh_service
    = recorded fresh_service [id john_doe] v /\
    verification_status v = not_found /\
    is_valid v = false /\ is_expired v = false /\
    issuer_worker_id v = None /\ v_issued_date v = None.
Proof.
  apply (unknown_credential_not_found test_runtime serving_nothing john_doe fresh_service
           "Request failed with status code 404").
  - vm_compute. reflexivity.
  - reflexivity.
Defined.

(** A 2xx answer without a truthy [success] and [data] is read as absent
    too. *)
Lemma empty_answer_not_found
    (rt : Runtime) (net : Network) (c : Credential) (s : Service)
    (ok : bool) (d : option Credential) :
  CryptoUtils.verifyCredentialSignature (process_env rt) c = true ->
  net (id c) = Fulfilled ok d ->
  ok = false \/ d = None ->
  exists v,
    VerificationModel.verifyCredential rt net c s = recorded s [id c] v /\
    verification_status v = not_found.
Proof.
  intros Hsig Hnet Hfalsy.
  rewrite verifyCredential_run. unfold asked, classify. rewrite Hsig, Hnet.
  destruct Hfalsy as [-> | ->]; [destruct d | destruct ok]; eexists; repeat split.
Qed.

(** C6, as stated, fails when the database handle is closed: the
    invocation stores nothing and the failure of the save propagates to
    the caller. *)
Lemma closed_database_records_nothing :
  VerificationModel.verifyCredential test_runtime (serving john_doe) john_doe
    disconnected_service
  = (Throw (Error "Failed to save verification record"),
     {| verifications := None; lookups := [id john_doe] |}).
Proof. vm_compute. reflexivity. Qed.

(** C6, amended. With the database open, every invocation appends exactly
    one record to the table, the one it returns, whichever status it
    reaches; a lookup that throws yields status invalid and does not
    propagate. With the database closed nothing is stored and the invocation
    throws the save error. *)
Theorem every_path_records_once
    (rt : Runtime) (net : Network) (c : Credential) (s : Service) :
  match verifications s with
  | Some rows =>
      exists v s',
        VerificationModel.verifyCredential rt net c s = (Normal v, s') /\
        verifications s' = Some (rows ++ [v])%list /\
        (CryptoUtils.verifyCredentialSignature (process_env rt) c = true ->
         lookup_fails (net (id c)) ->
         verification_status v = invalid /\ is_valid v = false /\ is_expired v = false)
  | None =>
      exists s',
        VerificationModel.verifyCredential rt net c s
        = (Throw (Error "Failed to save verification record"), s') /\
        verifications s' = None
  end.
Proof.
  rewrite verifyCredential_run. unfold recorded.
  destruct (verifications s) as [rows|].
  - eexists. eexists. split; [reflexivity|]. split; [reflexivity|].
    intros Hsig (status & message & Hnet & H404).
    unfold classify. rewrite Hsig, Hnet, H404. repeat split.
  - eexists. split; reflexivity.
Qed.

Lemma every_path_records_once_witness :
  exists v s',
    VerificationModel.verifyCredential test_runtime unreachable john_doe fresh_service
    = (Normal v, s') /\
    verifications s' = Some [v] /\
    verification_status v = invalid /\ is_valid v = false /\ is_expired v = false.
Proof.
  destruct (every_path_records_once test_runtime unreachable john_doe fresh_service)
    as (v & s' & Hrun & Hstore & Hthrow).
  exists v, s'. split; [exact Hrun|]. split; [exact Hstore|].
  apply Hthrow.
  - vm_compute. reflexivity.
  - exists None, "timeout of 10000ms exceeded". split; reflexivity.
Defined.

(** ** The issuance workflow *)

Lemma findByHolderAndType_run
    (request : CreateCredentialRequest) (rows : list Credential) :
  CredentialModel.findByHolderAndType
    (req_holder_name request) (req_credential_type request) (Some rows)
  = (Normal (find (same_holder_and_type request) rows), Some rows).
Proof. reflexivity. Qed.

Lemma find_first {A} (f : A -> bool) (l : list A) (x : A) :
  In x l -> f x = true -> exists y, find f l = Some y.
Proof.
  intros Hin Hf. destruct (find f l) as [y|] eqn:E; [now exists y|].
  rewrite (find_none f l E x Hin) in Hf. discriminate.
Qed.

(** C7. A request whose holder_name and credential_type are those of a
    stored credential is answered 409 with the id, issued_date and
    worker_id of a stored credential of that holder and type (the first
    such row), and the store is left as it was: nothing is created. *)
Theorem duplicate_issuance_conflict
    (rt : Runtime) (request : CreateCredentialRequest)
    (rows : list Credential) (stored : Credential) :
  In stored rows ->
  holder_name stored = req_holder_name request ->
  credential_type stored = req_credential_type request ->
  exists existing response,
    In existing rows /\
    holder_name existing = req_holder_name request /\
    credential_type existing = req_credential_type request /\
    CredentialController.issueCredential rt (Valid request) (Some rows)
    = (Normal response, Some rows) /\
    status response = 409%nat /\
    success (body response) = false /\
    data (body response)
    = Some (AlreadyIssued (id existing) (issued_date existing) (worker_id existing)).
Proof.
  intros Hin Hname Htype.
  destruct (find_first (same_holder_and_type request) rows stored Hin) as [existing E].
  { unfold same_holder_and_type. now rewrite Hname, Htype, !String.eqb_refl. }
  destruct (find_some _ _ E) as [Hin' Hsame].
  unfold same_holder_and_type in Hsame.
  apply andb_true_iff in Hsame as [Hn Ht].
  apply String.eqb_eq in Hn, Ht.
  exists existing. eexists.
  split; [exact Hin'|]. split; [exact Hn|]. split; [exact Ht|].
  split.
  - unfold CredentialController.issueCredential, try_catch, bind.
    rewrite findByHolderAndType_run, E. reflexivity.
  - repeat split.
Qed.

Lemma duplicate_issuance_conflict_witness :
  exists existing response,
    In existing [john_doe] /\
    holder_name existing = "John Doe" /\
    credential_type existing = "certificate" /\
    CredentialController.issueCredential test_runtime
      (Valid {| req_holder_name := "John Doe";
                req_credential_type := "certificate";
                req_expiry_date := None |})
      (Some [john_doe])
    = (Normal response, Some [john_doe]) /\
    status response = 409%nat /\
    success (body response) = false /\
    data (body response)
    = Some (AlreadyIssued (id existing) (issued_date existing) (worker_id existing)).
Proof.
  apply (duplicate_issuance_conflict test_runtime
           {| req_holder_name := "John Doe";
              req_credential_type := "certificate";
              req_expiry_date := None |}
           [john_doe] john_doe).
  - simpl. left. reflexivity.
  - reflexivity.
  - reflexivity.
Defined.

(** ** Lookup failures at the HTTP face *)

Lemma controller_run
    (rt : Runtime) (net : Network) (c : Credential) (s : Service) :
  VerificationController.verifyCredential rt net (Valid c) s
  = match VerificationModel.verifyCredential rt net c s with
    | (Normal v, s') =>
        (Normal
           {| status := 200%nat;
              body :=
                {| success := true;
                   message := "Credential verification completed by " ++ handler_worker_of rt;
                   data := Some
                     {| r_verification_id := v_id v;
                        r_credential_id := credential_id v;
                        r_is_valid := is_valid v;
                        r_is_expired := is_expired v;
                        r_verification_status := verification_status v;
                        r_verified_by := verified_by v;
                        r_verified_at := verified_at v;
                        r_issuer_worker_id := issuer_worker_id v;
                        r_issued_date := v_issued_date v |};
                   response_worker_id := handler_worker_of rt;
                   timestamp := toISOString rt (reply_time rt) |} |}, s')
    | (Throw _, s') => (Throw (AppError "Failed to verify credential" 500%nat), s')
    end.
Proof.
  unfold VerificationController.verifyCredential, try_catch, bind.
  destruct (VerificationModel.verifyCredential rt net c s) as [[v|e] s']; reflexivity.
Qed.

(** C8, as stated, fails: with the issuance service timing out, the
    request is answered 200 with the verification outcome invalid, and
    that outcome is stored as a verification record. *)
Lemma unreachable_issuance_answers_invalid :
  exists response v,
    VerificationController.verifyCredential test_runtime unreachable (Valid john_doe)
      fresh_service
    = (Normal response,
       {| verifications := Some [v]; lookups := [id john_doe] |}) /\
    status response = 200%nat /\
    option_map r_verification_status (data (body response)) = Some invalid /\
    verification_status v = invalid.
Proof.
  eexists. eexists. split; [vm_compute; reflexivity|]. repeat split.
Qed.

(** C8, amended. When the lookup of a self-consistent credential fails
    with anything but an explicit 404 (another status, a transport error, a
    timeout) and the database is open, the request is answered 200 with
    the verification outcome invalid (not valid, not expired, no issuer
    fields), and that outcome is stored as the invocation's one
    verification record; the request fails with a 500 only when the
    database is closed and the record cannot be saved. *)
Theorem lookup_failure_recorded_as_invalid
    (rt : Runtime) (net : Network) (c : Credential) (s : Service) :
  CryptoUtils.verifyCredentialSignature (process_env rt) c = true ->
  lookup_fails (net (id c)) ->
  match verifications s with
  | Some rows =>
      exists response d v,
        VerificationController.verifyCredential rt net (Valid c) s
        = (Normal response,
           {| verifications := Some (rows ++ [v])%list;
              lookups := (lookups s ++ [id c])%list |}) /\
        status response = 200%nat /\
        success (body response) = true /\
        data (body response) = Some d /\
        r_verification_status d = invalid /\
        r_is_valid d = false /\ r_is_expired d = false /\
        r_issuer_worker_id d = None /\ r_issued_date d = None /\
        verification_status v = invalid /\
        r_verification_id d = v_id v
  | None =>
      VerificationController.verifyCredential rt net (Valid c) s
      = (Throw (AppError "Failed to verify credential" 500%nat),
         {| verifications := None; lookups := (lookups s ++ [id c])%list |})
  end.
Proof.
  intros Hsig (st & message & Hnet & H404).
  rewrite controller_run, verifyCredential_run.
  unfold recorded, asked, classify. rewrite Hsig, Hnet, H404.
  destruct (verifications s) as [rows|]; [|reflexivity].
  eexists. eexists. eexists. split; [reflexivity|]. repeat split.
Qed.

Lemma lookup_failure_recorded_as_invalid_witness :
  exists response d v,
    VerificationController.verifyCredential test_runtime unreachable (Valid john_doe)
      fresh_service
    = (Normal response,
       {| verifications := Some [v]; lookups := [id john_doe] |}) /\
    status response = 200%nat /\
    success (body response) = true /\
    data (body response) = Some d /\
    r_verification_status d = invalid /\
    r_is_valid d = false /\ r_is_expired d = false /\
    r_issuer_worker_id d = None /\ r_issued_date d = None /\
    verification_status v = invalid /\
    r_verification_id d = v_id v.
Proof.
  apply (lookup_failure_recorded_as_invalid test_runtime unreachable john_doe
           fresh_service).
  - vm_compute. reflexivity.
  - exists None, "timeout of 10000ms exceeded". split; reflexivity.
Defined.

(** ** Expiry *)





(** ** Bookkeeping timestamps *)

(** C10. Two submitted credentials that differ at most in created_at and
    updated_at are told apart by neither the signature check nor the
    field-equality step, and for one runtime and one issuance service the
    workflow ends the same way on both: the same result, hence the same
    verification_status, is_valid and is_expired, and the same store. *)
Theorem bookkeeping_timestamps_invisible
    (rt : Runtime) (net : Network) (c : Credential) (created updated : string)
    (s : Service) :
  let c' := with_timestamps created updated c in
  CryptoUtils.verifyCredentialSignature (process_env rt) c'
  = CryptoUtils.verifyCredentialSignature (process_env rt) c /\
  (forall issued : Credential,
     VerificationModel.compareCredentials c' issued
     = VerificationModel.compareCredentials c issued) /\
  VerificationModel.verifyCredential rt net c' s
  = VerificationModel.verifyCredential rt net c s.
Proof.
  intros c'.
  assert (Hsig : CryptoUtils.verifyCredentialSignature (process_env rt) c'
                 = CryptoUtils.verifyCredentialSignature (process_env rt) c)
    by reflexivity.
  split; [exact Hsig|]. split; [reflexivity|].
  rewrite !verifyCredential_run. unfold asked, classify. rewrite Hsig.
  reflexivity.
Qed.

(* ===================================================================== *)
(** * Further properties *)

(** ** The shape of a signature *)

(** X1. Whatever the fields and the secret, a signature is 64 lower-case
    hexadecimal digits. *)
Theorem signature_is_64_hex_digits (env : ProcessEnv) (d : CredentialData) :
  String.length (CryptoUtils.generateCredentialSignature env d) = 64%nat /\
  Forall (fun a => hex_char a = true)
         (list_ascii_of_string (CryptoUtils.generateCredentialSignature env d)).
Proof.
  unfold CryptoUtils.generateCredentialSignature. apply hex_shape.
Qed.

(** X2. A credential whose signature field is not 64 characters long fails
    verification under every secret, and the workflow ends on
    signature_mismatch without asking the issuance service. *)
Theorem malformed_signature_is_mismatch
    (rt : Runtime) (net : Network) (c : Credential) (s : Service) :
  String.length (signature c) <> 64%nat ->
  CryptoUtils.verifyCredentialSignature (process_env rt) c = false /\
  exists v,
    VerificationModel.verifyCredential rt net c s = recorded s [] v /\
    verification_status v = signature_mismatch /\ is_valid v = false.
Proof.
  intros Hlen.
  assert (E : CryptoUtils.verifyCredentialSignature (process_env rt) c = false).
  { destruct (CryptoUtils.verifyCredentialSignature (process_env rt) c) eqn:E;
      [|reflexivity].
    apply verifyCredentialSignature_spec in E. exfalso. apply Hlen. rewrite E.
    unfold CryptoUtils.generateCredentialSignature. apply hex_shape. }
  split; [exact E|].
  rewrite verifyCredential_run. unfold asked, classify. rewrite E.
  eexists. repeat split.
Qed.

Lemma malformed_signature_is_mismatch_witness :
  let forged := {| id := id john_doe; holder_name := holder_name john_doe;
                   issuer := issuer john_doe; issued_date := issued_date john_doe;
                   credential_type := credential_type john_doe;
                   expiry_date := expiry_date john_doe;
                   signature := "invalid-signature";
                   worker_id := worker_id john_doe;
                   created_at := created_at john_doe;
                   updated_at := updated_at john_doe |} in
  CryptoUtils.verifyCredentialSignature test_env forged = false /\
  exists v,
    VerificationModel.verifyCredential test_runtime (serving john_doe) forged fresh_service
    = recorded fresh_service [] v /\
    verification_status v = signature_mismatch /\ is_valid v = false.
Proof.
  intros forged.
  apply (malformed_signature_is_mismatch test_runtime (serving john_doe) forged
           fresh_service).
  vm_compute. discriminate.
Defined.

(** ** What the signature binds *)

(** X3. The text that is hashed determines the seven canonical fields and
    the secret together: two signed texts are equal exactly when the fields
    are equal and the secrets are equal. *)
Theorem signed_text_determines_fields_and_secret
    (env env' : ProcessEnv) (d d' : CredentialData) :
  CryptoUtils.signed_text env d = CryptoUtils.signed_text env' d'
  <-> d = d' /\ CryptoUtils.secret env = CryptoUtils.secret env'.
Proof.
  split.
  - unfold CryptoUtils.signed_text, CryptoUtils.payload, JSON.stringify.
    rewrite !append_assoc. intros H. apply (append_cancel_l "{") in H.
    apply members_cancel in H as [Hfields Hrest]; [|reflexivity].
    split.
    + destruct d, d'. cbn in Hfields. now inversion Hfields.
    + now apply (append_cancel_l "}") in Hrest.
  - intros [-> Hsecret]. unfold CryptoUtils.signed_text. now rewrite Hsecret.
Qed.

Lemma signed_text_determines_fields_and_secret_witness :
  CryptoUtils.signed_text test_env john_doe_data
  <> CryptoUtils.signed_text
       {| JWT_SECRET := None; WORKER_ID := None |} john_doe_data.
Proof.
  intros H.
  apply (proj1 (signed_text_determines_fields_and_secret _ _ _ _)) in H.
  destruct H as [_ H]. cbv in H. discriminate H.
Defined.

(** X4. A credential that carries the signature of a verified one but
    differs from it in any of the canonical fields, in one or in several,
    fails verification, unless SHA-256 collides on the two signed texts. *)
Theorem any_tampering_is_detected (env : ProcessEnv) (c c' : Credential) :
  CryptoUtils.verifyCredentialSignature env c = true ->
  signature c' = signature c ->
  canonical c' <> canonical c ->
  ~ collide (CryptoUtils.signed_text env (canonical c'))
            (CryptoUtils.signed_text env (canonical c)) ->
  CryptoUtils.verifyCredentialSignature env c' = false.
Proof.
  intros Hc Hsig Hdiff Hfree.
  destruct (CryptoUtils.verifyCredentialSignature env c') eqn:E; [|reflexivity].
  exfalso. apply Hfree. split.
  - intros Htext. now apply signed_text_inj in Htext.
  - apply verifyCredentialSignature_spec in E, Hc.
    rewrite Hsig, Hc in E. exact (eq_sym E).
Qed.

Lemma any_tampering_is_detected_witness :
  CryptoUtils.verifyCredentialSignature test_env
    (set_field F_holder_name "Jane Doe"
       (set_field F_expiry_date "2099-01-01T00:00:00.000Z" john_doe)) = false.
Proof.
  apply (any_tampering_is_detected test_env john_doe).
  - vm_compute. reflexivity.
  - vm_compute. reflexivity.
  - vm_compute. discriminate.
  - intros [_ H]. revert H. vm_compute. discriminate.
Defined.

Lemma verify_sealed_spec (env env' : ProcessEnv) (d : CredentialData)
    (created updated : string) :
  CryptoUtils.verifyCredentialSignature env' (sealed env d created updated) = true
  <-> SHA256.hex (CryptoUtils.signed_text env' d)
      = SHA256.hex (CryptoUtils.signed_text env d).
Proof.
  rewrite verifyCredentialSignature_spec. destruct d.
  unfold sealed, canonical.
  cbn [signature id holder_name issuer issued_date credential_type expiry_date
       worker_id].
  unfold CryptoUtils.generateCredentialSignature.
  split; intros H; now symmetry.
Qed.

(** X5. A credential signed under one environment verifies under another
    whenever the two yield the same secret, and, unless SHA-256 collides on
    the two signed texts, only then. *)
Theorem verification_across_secrets
    (env env' : ProcessEnv) (d : CredentialData) (created updated : string) :
  (CryptoUtils.secret env' = CryptoUtils.secret env ->
   CryptoUtils.verifyCredentialSignature env' (sealed env d created updated) = true)
  /\
  (CryptoUtils.secret env' <> CryptoUtils.secret env ->
   ~ collide (CryptoUtils.signed_text env' d) (CryptoUtils.signed_text env d) ->
   CryptoUtils.verifyCredentialSignature env' (sealed env d created updated) = false).
Proof.
  split.
  - intros Hsecret. apply verify_sealed_spec.
    unfold CryptoUtils.signed_text. now rewrite Hsecret.
  - intros Hsecret Hfree.
    destruct (CryptoUtils.verifyCredentialSignature env' (sealed env d created updated))
      eqn:E; [|reflexivity].
    exfalso. apply Hfree. split.
    + intros Htext. apply Hsecret.
      unfold CryptoUtils.signed_text in Htext. now apply append_cancel_l in Htext.
    + apply verify_sealed_spec in E. exact E.
Qed.

Lemma verification_across_secrets_witness :
  CryptoUtils.verifyCredentialSignature
    {| JWT_SECRET := Some "test-secret"; WORKER_ID := None |} john_doe = true /\
  CryptoUtils.verifyCredentialSignature
    {| JWT_SECRET := Some "other-secret"; WORKER_ID := None |} john_doe = false.
Proof.
  split.
  - apply (proj1 (verification_across_secrets test_env
                    {| JWT_SECRET := Some "test-secret"; WORKER_ID := None |}
                    john_doe_data _ _)).
    reflexivity.
  - apply (proj2 (verification_across_secrets test_env
                    {| JWT_SECRET := Some "other-secret"; WORKER_ID := None |}
                    john_doe_data _ _)).
    + vm_compute. discriminate.
    + intros [_ H]. revert H. vm_compute. discriminate.
Defined.

(** X6. An unset JWT_SECRET, an empty one and the literal default-secret
    are one and the same secret: a credential signed under any of the three
    verifies under the other two. *)
Theorem empty_secret_is_the_default
    (w w' : option string) (d : CredentialData) (created updated : string) :
  let unset := {| JWT_SECRET := None; WORKER_ID := w |} in
  let empty := {| JWT_SECRET := Some EmptyString; WORKER_ID := w' |} in
  let literal := {| JWT_SECRET := Some "default-secret"; WORKER_ID := w' |} in
  CryptoUtils.generateCredentialSignature empty d
  = CryptoUtils.generateCredentialSignature unset d /\
  CryptoUtils.generateCredentialSignature literal d
  = CryptoUtils.generateCredentialSignature unset d /\
  CryptoUtils.verifyCredentialSignature empty (sealed unset d created updated) = true /\
  CryptoUtils.verifyCredentialSignature unset (sealed empty d created updated) = true /\
  CryptoUtils.verifyCredentialSignature literal (sealed empty d created updated) = true.
Proof.
  intros unset empty literal.
  assert (Hempty : CryptoUtils.signed_text empty d = CryptoUtils.signed_text unset d)
    by (unfold CryptoUtils.signed_text; reflexivity).
  assert (Hliteral : CryptoUtils.signed_text literal d = CryptoUtils.signed_text unset d)
    by (unfold CryptoUtils.signed_text; reflexivity).
  unfold CryptoUtils.generateCredentialSignature.
  rewrite !verify_sealed_spec, Hempty, Hliteral. repeat split.
Qed.

(** ** The issuance service, request by request *)

Section Issuance.

Lemma find_app {A} (f : A -> bool) (l : list A) (x : A) :
  find f (l ++ [x])
  = match find f l with
    | Some y => Some y
    | None => if f x then Some x else None
    end.
Proof.
  induction l as [|a l IH]; cbn; [reflexivity|].
  destruct (f a); [reflexivity | exact IH].
Qed.

Lemma create_run (rt : Runtime) (request : CreateCredentialRequest)
    (db : Database.t Credential) :
  CredentialModel.create rt request db
  = match db with
    | None => (Throw (Error "Failed to create credential"), None)
    | Some rows =>
        if CredentialModel.credentials_violates rows (new_row rt request)
        then (Throw (Error "Failed to create credential"), Some rows)
        else (Normal (new_credential rt request),
              Some (rows ++ [new_row rt request])%list)
    end.
Proof.
  unfold CredentialModel.create, try_catch, bind, Database.run_insert, ret, throw.
  destruct db as [rows|]; [|reflexivity].
  cbv beta iota zeta.
  match goal with
  | |- context [CredentialModel.credentials_violates rows ?c] =>
      change c with (new_row rt request)
  end.
  destruct (CredentialModel.credentials_violates rows (new_row rt request));
    reflexivity.
Qed.

(** Without a [Date] in the request, the row is the credential returned. *)
Lemma undated_row (rt : Runtime) (request : CreateCredentialRequest) :
  dated request = false -> new_row rt request = new_credential rt request.
Proof.
  unfold dated, new_row, new_credential, expiry_of, CredentialModel.expiry_or.
  destruct (req_expiry_date request) as [[s | t]|]; intros H;
    [destruct (truthy s); reflexivity | discriminate H | reflexivity].
Qed.

(** The handler on a validated request, by cases on the store. *)
Lemma issueCredential_run (rt : Runtime) (request : CreateCredentialRequest)
    (db : Database.t Credential) :
  post_credentials rt (Valid request) db
  = match db with
    | None => (error_response rt 500 "Failed to issue credential", None)
    | Some rows =>
        match find (same_holder_and_type request) rows with
        | Some existing => (conflict_response rt request existing, Some rows)
        | None =>
            if CredentialModel.credentials_violates rows (new_row rt request)
            then (error_response rt 500 "Failed to issue credential", Some rows)
            else (created_response rt (new_credential rt request),
                  Some (rows ++ [new_row rt request])%list)
        end
    end.
Proof.
  unfold post_credentials, ErrorHandler.asyncHandler,
    CredentialController.issueCredential.
  unfold try_catch at 1. unfold bind at 1.
  destruct db as [rows|]; [|reflexivity].
  rewrite findByHolderAndType_run.
  destruct (find (same_holder_and_type request) rows) as [existing|]; [reflexivity|].
  unfold bind. rewrite create_run.
  destruct (CredentialModel.credentials_violates rows (new_row rt request));
    reflexivity.
Qed.

Lemma no_match_find (request : CreateCredentialRequest) (rows : list Credential) :
  (forall row, In row rows ->
     ~ (holder_name row = req_holder_name request
        /\ credential_type row = req_credential_type request))
  <-> find (same_holder_and_type request) rows = None.
Proof.
  split.
  - intros H. destruct (find (same_holder_and_type request) rows) as [e|] eqn:E;
      [|reflexivity].
    destruct (find_some _ _ E) as [Hin Hsame]. exfalso. apply (H e Hin).
    unfold same_holder_and_type in Hsame. apply andb_true_iff in Hsame as [Hn Ht].
    now apply String.eqb_eq in Hn, Ht.
  - intros E row Hin [Hn Ht].
    pose proof (find_none _ _ E row Hin) as Hsame.
    unfold same_holder_and_type in Hsame.
    now rewrite Hn, Ht, !String.eqb_refl in Hsame.
Qed.

Lemma fresh_id_not_violating (rows : list Credential) (c : Credential) :
  ~ In (id c) (map id rows) <-> CredentialModel.credentials_violates rows c = false.
Proof.
  unfold CredentialModel.credentials_violates. split.
  - intros H. destruct (existsb _ rows) eqn:E; [|reflexivity].
    apply existsb_exists in E as (r & Hin & Heq). apply String.eqb_eq in Heq.
    exfalso. apply H. rewrite <- Heq. now apply in_map.
  - intros E Hin. apply in_map_iff in Hin as (r & Heq & Hin).
    assert (Ht : existsb (fun r0 => String.eqb (id r0) (id c)) rows = true).
    { apply existsb_exists. exists r. split; [exact Hin|]. now apply String.eqb_eq. }
    rewrite Ht in E. discriminate.
Qed.

Lemma new_credential_verifies (rt : Runtime) (request : CreateCredentialRequest) :
  CryptoUtils.verifyCredentialSignature (process_env rt) (new_credential rt request) = true.
Proof. unfold new_credential. apply verify_sealed_spec. reflexivity. Qed.

(** Reading a 201 back: what was stored and why. *)
Lemma created_inversion (rt : Runtime) (request : CreateCredentialRequest)
    (rows : list Credential) (response : HttpResponse IssueData)
    (db' : Database.t Credential) :
  post_credentials rt (Valid request) (Some rows) = (response, db') ->
  status response = 201%nat ->
  find (same_holder_and_type request) rows = None /\
  CredentialModel.credentials_violates rows (new_row rt request) = false /\
  response = created_response rt (new_credential rt request) /\
  db' = Some (rows ++ [new_row rt request])%list.
Proof.
  rewrite issueCredential_run. intros Hrun Hstatus.
  destruct (find (same_holder_and_type request) rows) as [existing|].
  - injection Hrun as <- <-. discriminate Hstatus.
  - destruct (CredentialModel.credentials_violates rows (new_row rt request)).
    + injection Hrun as <- <-. discriminate Hstatus.
    + injection Hrun as <- <-. repeat split.
Qed.

End Issuance.

(** X7. A validated request for a holder and type not yet stored, served
    with an open database and an unused id, is answered 201 with a new
    credential: it carries the request's holder and type, the fixed issuer,
    one timestamp as issued_date, created_at and updated_at, a signature
    that verifies, and as expiry_date the requested text, the ISO text of
    the requested [Date], or, when none or an empty text was given, the
    clock plus 365 days. One row is appended to the store. It is that
    credential when the request carried no [Date]; when it did, the row
    differs from the credential in expiry_date, which holds the text the
    driver made of the time value, the signature being that of the
    credential returned. *)
Theorem fresh_issuance_stores_signed_credential
    (rt : Runtime) (request : CreateCredentialRequest) (rows : list Credential) :
  (forall row, In row rows ->
     ~ (holder_name row = req_holder_name request
        /\ credential_type row = req_credential_type request)) ->
  ~ In (uuidv4 rt) (map id rows) ->
  exists c row,
    post_credentials rt (Valid request) (Some rows)
    = (created_response rt c, Some (rows ++ [row])%list) /\
    id c = uuidv4 rt /\
    holder_name c = req_holder_name request /\
    credential_type c = req_credential_type request /\
    issuer c = "Kube Credential Authority" /\
    issued_date c = toISOString rt (start_time rt) /\
    created_at c = issued_date c /\ updated_at c = issued_date c /\
    worker_id c = worker_of rt /\
    expiry_date c
    = match req_expiry_date request with
      | Some (ExpiryDate t) => toISOString rt t
      | Some (ExpiryText (String a e)) => String a e
      | _ => toISOString rt (check_time rt + 365 * 24 * 60 * 60 * 1000)
      end /\
    CryptoUtils.verifyCredentialSignature (process_env rt) c = true /\
    row = set_field F_expiry_date
            match req_expiry_date request with
            | Some (ExpiryDate t) => sqlite_date_text rt t
            | _ => expiry_date c
            end c.
Proof.
  intros Hnew Hfresh.
  exists (new_credential rt request), (new_row rt request).
  apply no_match_find in Hnew.
  apply (fresh_id_not_violating rows (new_row rt request)) in Hfresh.
  split.
  - rewrite issueCredential_run, Hnew, Hfresh. reflexivity.
  - repeat split.
    + cbn. unfold expiry_of, CredentialModel.expiry_or.
      destruct (req_expiry_date request) as [[[|a e] | t]|]; reflexivity.
    + apply new_credential_verifies.
    + unfold new_row, new_credential, expiry_of, CredentialModel.expiry_or.
      destruct (req_expiry_date request) as [[s | t]|];
        [destruct (truthy s) | |]; reflexivity.
Qed.

Lemma fresh_issuance_stores_signed_credential_witness :
  (exists c,
     post_credentials test_runtime
       (Valid {| req_holder_name := "Jane Roe"; req_credential_type := "license";
                 req_expiry_date := None |})
       (Some [john_doe])
     = (created_response test_runtime c, Some [john_doe; c]) /\
     holder_name c = "Jane Roe" /\
     expiry_date c = "2026-06-01T00:00:00.000Z" /\
     CryptoUtils.verifyCredentialSignature test_env c = true) /\
  (exists c,
     post_credentials test_runtime
       (Valid {| req_holder_name := "Jane Roe"; req_credential_type := "license";
                 req_expiry_date := Some (ExpiryDate 1798761600000) |})
       (Some [john_doe])
     = (created_response test_runtime c,
        Some [john_doe; set_field F_expiry_date "1798761600000.0" c]) /\
     expiry_date c = "2027-01-01T00:00:00.000Z" /\
     CryptoUtils.verifyCredentialSignature test_env c = true).
Proof.
  split.
  - destruct (fresh_issuance_stores_signed_credential test_runtime
                {| req_holder_name := "Jane Roe"; req_credential_type := "license";
                   req_expiry_date := None |} [john_doe])
      as (c & row & Hrun & _ & Hname & _ & _ & _ & _ & _ & _ & Hexp & Hsig & Hrow).
    + intros row [<- | []] [Hn _]. vm_compute in Hn. discriminate Hn.
    + intros [H | []]. vm_compute in H. discriminate H.
    + exists c. cbn [req_expiry_date] in Hrow, Hexp.
      assert (Hsame : row = c) by (rewrite Hrow; destruct c; reflexivity).
      rewrite Hsame in Hrun.
      split; [exact Hrun|]. split; [exact Hname|].
      split; [|exact Hsig]. rewrite Hexp. vm_compute. reflexivity.
  - destruct (fresh_issuance_stores_signed_credential test_runtime
                {| req_holder_name := "Jane Roe"; req_credential_type := "license";
                   req_expiry_date := Some (ExpiryDate 1798761600000) |} [john_doe])
      as (c & row & Hrun & _ & _ & _ & _ & _ & _ & _ & _ & Hexp & Hsig & Hrow).
    + intros row [<- | []] [Hn _]. vm_compute in Hn. discriminate Hn.
    + intros [H | []]. vm_compute in H. discriminate H.
    + exists c. cbn [req_expiry_date] in Hrow, Hexp.
      rewrite Hrow in Hrun.
      split; [exact Hrun|]. split; [|exact Hsig]. rewrite Hexp. vm_compute. reflexivity.
Defined.

(** X8. An issuance that cannot be stored changes nothing and is answered
    500 with the fixed message: when the database is closed, whatever the
    request, and when the generated id is already that of a stored row. *)
Theorem failed_issuance_changes_nothing
    (rt : Runtime) (request : CreateCredentialRequest) (db : Database.t Credential) :
  db = None
  \/ (exists rows,
        db = Some rows /\
        find (same_holder_and_type request) rows = None /\
        In (uuidv4 rt) (map id rows)) ->
  post_credentials rt (Valid request) db
  = (error_response rt 500 "Failed to issue credential", db).
Proof.
  intros [-> | (rows & -> & Hnew & Hused)]; rewrite issueCredential_run;
    [reflexivity|].
  rewrite Hnew.
  destruct (CredentialModel.credentials_violates rows (new_row rt request))
    eqn:E; [reflexivity|].
  apply fresh_id_not_violating in E. contradiction.
Qed.

Lemma failed_issuance_changes_nothing_witness :
  post_credentials test_runtime
    (Valid {| req_holder_name := "Jane Roe"; req_credential_type := "license";
              req_expiry_date := None |}) None
  = (error_response test_runtime 500 "Failed to issue credential", None).
Proof.
  apply failed_issuance_changes_nothing. left. reflexivity.
Defined.

(** X9. Once a request has been answered 201, every later validated
    request for the same holder and type, by whichever worker, is answered
    409 with the id, issued_date and worker_id of the credential created
    then, and stores nothing. *)
Theorem reissue_is_refused_with_first_credential
    (rt rt2 : Runtime) (request request2 : CreateCredentialRequest)
    (rows : list Credential) (response : HttpResponse IssueData)
    (db' : Database.t Credential) (c : Credential) :
  post_credentials rt (Valid request) (Some rows) = (response, db') ->
  status response = 201%nat ->
  data (body response) = Some (Issued c) ->
  req_holder_name request2 = req_holder_name request ->
  req_credential_type request2 = req_credential_type request ->
  post_credentials rt2 (Valid request2) db'
  = (conflict_response rt2 request2 c, db').
Proof.
  intros Hrun Hstatus Hdata Hname Htype.
  destruct (created_inversion _ _ _ _ _ Hrun Hstatus) as (Hnone & _ & -> & ->).
  cbn in Hdata. injection Hdata as <-.
  rewrite issueCredential_run, find_app.
  assert (Hsame : same_holder_and_type request2 = same_holder_and_type request).
  { unfold same_holder_and_type. now rewrite Hname, Htype. }
  rewrite Hsame, Hnone.
  unfold same_holder_and_type at 1. cbn [holder_name credential_type new_credential sealed
    d_holder_name d_credential_type]. rewrite !String.eqb_refl. reflexivity.
Qed.

Lemma reissue_is_refused_with_first_credential_witness :
  let request := {| req_holder_name := "Jane Roe"; req_credential_type := "license";
                    req_expiry_date := None |} in
  post_credentials test_runtime (Valid request)
    (snd (post_credentials test_runtime (Valid request) (Some [john_doe])))
  = (conflict_response test_runtime request (new_credential test_runtime request),
     Some [john_doe; new_credential test_runtime request]).
Proof.
  intros request.
  assert (Hfirst : post_credentials test_runtime (Valid request) (Some [john_doe])
                   = (created_response test_runtime (new_credential test_runtime request),
                      Some [john_doe; new_credential test_runtime request])).
  { rewrite issueCredential_run. reflexivity. }
  rewrite Hfirst.
  apply (reissue_is_refused_with_first_credential test_runtime test_runtime request
           request [john_doe] _ _ _ Hfirst); reflexivity.
Defined.

(** ** Reading the credential store *)

Section Store.

Lemma get_credential_run (rt : Runtime) (wanted : string) (db : Database.t Credential) :
  get_credential rt wanted db
  = (if truthy wanted then
       match db with
       | None => error_response rt 500 "Failed to retrieve credential"
       | Some rows =>
           match find (fun row => String.eqb (id row) wanted) rows with
           | Some c => credential_response rt c
           | None => error_response rt 404 "Credential not found"
           end
       end
     else error_response rt 400 "Credential ID is required",
     db).
Proof.
  unfold get_credential, ErrorHandler.asyncHandler, CredentialController.getCredential.
  destruct (truthy wanted); cbn [negb]; [|reflexivity].
  destruct db as [rows|]; [|reflexivity].
  unfold try_catch, bind, CredentialModel.findById, Database.get, try_catch.
  destruct (find (fun row => String.eqb (id row) wanted) rows); reflexivity.
Qed.

Lemma find_by_unique_id (rows : list Credential) (c : Credential) :
  NoDup (map id rows) -> In c rows ->
  find (fun row => String.eqb (id row) (id c)) rows = Some c.
Proof.
  induction rows as [|r rows IH]; intros Hnodup Hin; [destruct Hin|].
  cbn [map] in Hnodup. inversion Hnodup as [|x l Hnotin Hrest]; subst.
  cbn [find]. destruct Hin as [-> | Hin].
  - now rewrite String.eqb_refl.
  - destruct (String.eqb (id r) (id c)) eqn:E; [|now apply IH].
    apply String.eqb_eq in E. exfalso. apply Hnotin. rewrite E. now apply in_map.
Qed.

Lemma verify_same_secret (env env' : ProcessEnv) (c : Credential) :
  CryptoUtils.secret env' = CryptoUtils.secret env ->
  CryptoUtils.verifyCredentialSignature env' c
  = CryptoUtils.verifyCredentialSignature env c.
Proof.
  intros Hsecret.
  unfold CryptoUtils.verifyCredentialSignature, CryptoUtils.generateCredentialSignature,
    CryptoUtils.signed_text.
  now rewrite Hsecret.
Qed.

(** One request only ever appends to the store, and keeps its ids
    distinct and its holders and types apart; the row it appends verifies
    when the request carried no [Date]. *)
Lemma issuance_step (rt : Runtime)
    (validated : Validation CreateCredentialRequest) (rows : list Credential) :
  unique_store rows ->
  exists added,
    snd (post_credentials rt validated (Some rows)) = Some (rows ++ added)%list /\
    unique_store (rows ++ added) /\
    (List.length added <= 1)%nat /\
    ((forall request, validated = Valid request -> dated request = false) ->
     Forall (fun c => CryptoUtils.verifyCredentialSignature (process_env rt) c = true)
            added).
Proof.
  intros (Hids & Hpairs).
  destruct validated as [request | details].
  2:{ exists []. rewrite app_nil_r. repeat split; auto. }
  rewrite issueCredential_run.
  destruct (find (same_holder_and_type request) rows) as [existing|] eqn:Hfind.
  { exists []. rewrite app_nil_r. repeat split; auto. }
  destruct (CredentialModel.credentials_violates rows (new_row rt request))
    eqn:Hviol.
  { exists []. rewrite app_nil_r. repeat split; auto. }
  exists [new_row rt request]. split; [reflexivity|].
  apply (proj2 (fresh_id_not_violating _ _)) in Hviol.
  pose proof (proj2 (no_match_find request rows) Hfind) as Hnomatch.
  split; [split|split; [auto|]].
  - rewrite map_app. apply NoDup_app; [exact Hids | repeat constructor; intros [] |].
    intros a Ha [<- | []]. contradiction.
  - rewrite map_app. apply NoDup_app; [exact Hpairs | repeat constructor; intros [] |].
    intros a Ha [<- | []].
    apply in_map_iff in Ha as (row & Heq & Hin).
    apply (Hnomatch row Hin). unfold holder_and_type in Heq.
    injection Heq as Hn Ht. split; assumption.
  - intros Hundated. constructor; [|constructor].
    rewrite undated_row by (now apply Hundated). apply new_credential_verifies.
Qed.

Lemma issuance_steps (env : ProcessEnv)
    (requests : list (Runtime * Validation CreateCredentialRequest))
    (rows : list Credential) :
  unique_store rows ->
  exists added,
    issue_all requests (Some rows) = Some (rows ++ added)%list /\
    unique_store (rows ++ added) /\
    (List.length added <= List.length requests)%nat /\
    ((forall rq, In rq requests ->
        CryptoUtils.secret (process_env (fst rq)) = CryptoUtils.secret env) ->
     undated_requests requests ->
     Forall (fun c => CryptoUtils.verifyCredentialSignature env c = true) added).
Proof.
  revert rows. induction requests as [|[rt validated] requests IH]; intros rows Huniq.
  - exists []. rewrite app_nil_r. split; [reflexivity|].
    split; [exact Huniq|]. split; [cbn; lia | intros _ _; constructor].
  - destruct (issuance_step rt validated rows Huniq)
      as (first & Hstep & Huniq1 & Hlen1 & Hsig1).
    destruct (IH (rows ++ first)%list Huniq1) as (more & Hrest & Huniq2 & Hlen2 & Hsig2).
    exists (first ++ more)%list.
    unfold issue_all in *. cbn [fold_left fst snd]. rewrite Hstep, Hrest.
    rewrite <- app_assoc in *. split; [reflexivity|]. split; [exact Huniq2|].
    split; [rewrite length_app; cbn [List.length]; lia|].
    intros Hsecret Hundated. apply Forall_app. split.
    + assert (Hfirst : Forall (fun c => CryptoUtils.verifyCredentialSignature
                                          (process_env rt) c = true) first).
      { apply Hsig1. intros request Hvalid.
        apply (Hundated (rt, validated) request); [now left | exact Hvalid]. }
      revert Hfirst. apply Forall_impl. intros c Hc.
      rewrite (verify_same_secret (process_env rt) env); [exact Hc|].
      symmetry. apply (Hsecret (rt, validated)). now left.
    + apply Hsig2.
      * intros rq Hin. apply Hsecret. now right.
      * intros rq request Hin. apply Hundated. now right.
Qed.

Lemma empty_store_unique : unique_store [].
Proof. split; constructor. Qed.

(** The row a 201 left is found by the id of the credential answered. *)
Lemma find_created (rt : Runtime) (request : CreateCredentialRequest)
    (rows : list Credential) :
  CredentialModel.credentials_violates rows (new_row rt request) = false ->
  find (fun row => String.eqb (id row) (id (new_credential rt request)))
       (rows ++ [new_row rt request])
  = Some (new_row rt request).
Proof.
  intros Hviol. rewrite find_app.
  destruct (find _ rows) as [other|] eqn:E.
  - destruct (find_some _ _ E) as [Hin Heq]. apply String.eqb_eq in Heq.
    apply (proj2 (fresh_id_not_violating _ _)) in Hviol. exfalso. apply Hviol.
    change (id (new_row rt request)) with (id (new_credential rt request)).
    rewrite <- Heq. now apply in_map.
  - change (id (new_row rt request)) with (id (new_credential rt request)).
    now rewrite String.eqb_refl.
Qed.

End Store.

(** X10. A credential just issued for a request that carried no [Date]
    can be fetched by its id, from any worker: the answer is 200 with that
    very credential, is_expired as the expiry comparison says, and is_valid
    true when the worker has the issuer's secret. *)
Theorem issued_credential_can_be_fetched
    (rt rt2 : Runtime) (request : CreateCredentialRequest) (rows : list Credential)
    (response : HttpResponse IssueData) (db' : Database.t Credential) (c : Credential) :
  post_credentials rt (Valid request) (Some rows) = (response, db') ->
  status response = 201%nat ->
  data (body response) = Some (Issued c) ->
  dated request = false ->
  uuidv4 rt <> EmptyString ->
  get_credential rt2 (id c) db' = (credential_response rt2 c, db') /\
  (CryptoUtils.secret (process_env rt2) = CryptoUtils.secret (process_env rt) ->
   CredentialModel.verifyCredential rt2 c = true).
Proof.
  intros Hrun Hstatus Hdata Hundated Hid.
  destruct (created_inversion _ _ _ _ _ Hrun Hstatus) as (_ & Hviol & -> & ->).
  cbn in Hdata. injection Hdata as <-.
  split.
  - rewrite get_credential_run.
    assert (Ht : truthy (id (new_credential rt request)) = true).
    { cbn. destruct (uuidv4 rt); [contradiction | reflexivity]. }
    rewrite Ht, (find_created rt request rows Hviol), undated_row by exact Hundated.
    reflexivity.
  - intros Hsecret. unfold CredentialModel.verifyCredential.
    rewrite (verify_same_secret (process_env rt) (process_env rt2)) by exact Hsecret.
    apply new_credential_verifies.
Qed.

Lemma issued_credential_can_be_fetched_witness :
  let request := {| req_holder_name := "Jane Roe"; req_credential_type := "license";
                    req_expiry_date := None |} in
  let c := new_credential test_runtime request in
  get_credential test_runtime (id c) (Some [john_doe; c])
  = (credential_response test_runtime c, Some [john_doe; c]) /\
  CredentialModel.verifyCredential test_runtime c = true.
Proof.
  intros request c.
  assert (Hfirst : post_credentials test_runtime (Valid request) (Some [john_doe])
                   = (created_response test_runtime c, Some [john_doe; c])).
  { rewrite issueCredential_run. reflexivity. }
  destruct (issued_credential_can_be_fetched test_runtime test_runtime request
              [john_doe] _ _ c Hfirst) as [Hget Hvalid].
  - reflexivity.
  - reflexivity.
  - reflexivity.
  - discriminate.
  - split; [exact Hget | apply Hvalid; reflexivity].
Defined.

(** X11. Served one after another, issuance requests only ever append to
    the store, at most one row each, and keep its ids pairwise distinct and
    its rows apart in holder and type. When the workers share the secret
    and no request carries a [Date], every stored signature goes on
    verifying as well. *)
Theorem sequential_issuance_keeps_store_well_formed
    (env : ProcessEnv)
    (requests : list (Runtime * Validation CreateCredentialRequest))
    (rows : list Credential) :
  unique_store rows ->
  exists added,
    issue_all requests (Some rows) = Some (rows ++ added)%list /\
    unique_store (rows ++ added) /\
    (List.length added <= List.length requests)%nat /\
    ((forall rq, In rq requests ->
        CryptoUtils.secret (process_env (fst rq)) = CryptoUtils.secret env) ->
     undated_requests requests ->
     well_formed_store env rows ->
     well_formed_store env (rows ++ added)).
Proof.
  intros Huniq.
  destruct (issuance_steps env requests rows Huniq)
    as (added & Hall & (Hids & Hpairs) & Hlen & Hsigs).
  exists added. split; [exact Hall|]. split; [now split|]. split; [exact Hlen|].
  intros Hsecret Hundated (_ & _ & Hrows).
  split; [exact Hids|]. split; [exact Hpairs|].
  apply Forall_app. split; [exact Hrows | now apply Hsigs].
Qed.

Lemma sequential_issuance_keeps_store_well_formed_witness :
  let jane := Valid {| req_holder_name := "Jane Roe"; req_credential_type := "license";
                       req_expiry_date := None |} in
  exists added,
    issue_all [(test_runtime, jane); (test_runtime, jane)] (Some [])
    = Some ([] ++ added)%list /\
    well_formed_store test_env ([] ++ added) /\
    (List.length added <= 2)%nat.
Proof.
  intros jane.
  destruct (sequential_issuance_keeps_store_well_formed test_env
              [(test_runtime, jane); (test_runtime, jane)] [])
    as (added & Hall & _ & Hlen & Hwf).
  - split; constructor.
  - exists added. split; [exact Hall|]. split; [|exact Hlen].
    apply Hwf.
    + intros rq [<- | [<- | []]]; reflexivity.
    + intros rq request [<- | [<- | []]] Hvalid; injection Hvalid as <-; reflexivity.
    + repeat split; constructor.
Defined.

(** X12. In a store built from the empty one by issuance requests of
    workers sharing the secret, none of which carried a [Date], every
    stored credential with a non-empty id is served by GET
    /api/credentials/{id} as itself, with is_valid true. *)
Theorem stored_credentials_report_valid
    (rt : Runtime)
    (requests : list (Runtime * Validation CreateCredentialRequest))
    (rows : list Credential) (c : Credential) :
  (forall rq, In rq requests ->
     CryptoUtils.secret (process_env (fst rq)) = CryptoUtils.secret (process_env rt)) ->
  undated_requests requests ->
  issue_all requests (Some []) = Some rows ->
  In c rows ->
  id c <> EmptyString ->
  exists view,
    get_credential rt (id c) (Some rows)
    = (credential_response rt c, Some rows) /\
    data (body (credential_response rt c)) = Some view /\
    view_credential view = c /\
    view_is_valid view = true.
Proof.
  intros Hsecret Hundated Hrows Hin Hid.
  destruct (issuance_steps (process_env rt) requests [] empty_store_unique)
    as (added & Hall & (Hids & _) & _ & Hsigs).
  rewrite Hrows in Hall. injection Hall as ->. cbn [app] in *.
  specialize (Hsigs Hsecret Hundated).
  eexists. split; [|split; [reflexivity|split; [reflexivity|]]].
  - rewrite get_credential_run.
    assert (Ht : truthy (id c) = true) by (destruct (id c); [contradiction|reflexivity]).
    rewrite Ht, (find_by_unique_id added c Hids Hin). reflexivity.
  - cbn. unfold CredentialModel.verifyCredential.
    rewrite Forall_forall in Hsigs. now apply Hsigs.
Qed.

Lemma stored_credentials_report_valid_witness :
  let request := {| req_holder_name := "Jane Roe"; req_credential_type := "license";
                    req_expiry_date := None |} in
  let c := new_credential test_runtime request in
  exists view,
    get_credential test_runtime (id c) (Some [c])
    = (credential_response test_runtime c, Some [c]) /\
    data (body (credential_response test_runtime c)) = Some view /\
    view_credential view = c /\
    view_is_valid view = true.
Proof.
  intros request c.
  apply (stored_credentials_report_valid test_runtime
           [(test_runtime, Valid request)] [c] c).
  - intros rq [<- | []]. reflexivity.
  - intros rq r [<- | []] Hvalid. injection Hvalid as <-. reflexivity.
  - unfold issue_all. cbn [fold_left fst snd]. rewrite issueCredential_run. reflexivity.
  - left. reflexivity.
  - discriminate.
Defined.

(** X28. A credential issued for a request that carried a [Date] is
    answered with the ISO text of the date as expiry_date and a signature
    over it, but is stored, and then served by GET /api/credentials/{id},
    with the text the driver made of the time value. Where the two texts
    differ the served row no longer carries the fields that were signed:
    its is_valid is false, unless SHA-256 collides on the two signed
    texts. *)
Theorem dated_credential_is_served_altered
    (rt rt2 : Runtime) (request : CreateCredentialRequest) (t : Z)
    (rows : list Credential) (response : HttpResponse IssueData)
    (db' : Database.t Credential) (c : Credential) :
  post_credentials rt (Valid request) (Some rows) = (response, db') ->
  status response = 201%nat ->
  data (body response) = Some (Issued c) ->
  req_expiry_date request = Some (ExpiryDate t) ->
  uuidv4 rt <> EmptyString ->
  let row := set_field F_expiry_date (sqlite_date_text rt t) c in
  expiry_date c = toISOString rt t /\
  CryptoUtils.verifyCredentialSignature (process_env rt) c = true /\
  get_credential rt2 (id c) db' = (credential_response rt2 row, db') /\
  (sqlite_date_text rt t <> toISOString rt t ->
   CryptoUtils.secret (process_env rt2) = CryptoUtils.secret (process_env rt) ->
   ~ collide (CryptoUtils.signed_text (process_env rt) (canonical row))
             (CryptoUtils.signed_text (process_env rt) (canonical c)) ->
   CredentialModel.verifyCredential rt2 row = false).
Proof.
  intros Hrun Hstatus Hdata Hdate Hid row.
  destruct (created_inversion _ _ _ _ _ Hrun Hstatus) as (_ & Hviol & -> & ->).
  cbn in Hdata. injection Hdata as <-.
  assert (Hrow : new_row rt request = row).
  { subst row. unfold new_row, expiry_of. now rewrite Hdate. }
  assert (Hexp : expiry_date (new_credential rt request) = toISOString rt t).
  { cbn. unfold expiry_of. now rewrite Hdate. }
  split; [exact Hexp|]. split; [apply new_credential_verifies|]. split.
  - rewrite get_credential_run.
    assert (Ht : truthy (id (new_credential rt request)) = true).
    { cbn. destruct (uuidv4 rt); [contradiction | reflexivity]. }
    now rewrite Ht, (find_created rt request rows Hviol), Hrow.
  - intros Hdiff Hsecret Hfree. unfold CredentialModel.verifyCredential.
    rewrite (verify_same_secret (process_env rt) (process_env rt2)) by exact Hsecret.
    destruct (CryptoUtils.verifyCredentialSignature (process_env rt) row) eqn:E;
      [|reflexivity].
    exfalso. apply Hfree. split.
    + intros Htext. apply signed_text_inj in Htext.
      apply (f_equal d_expiry_date) in Htext.
      change (sqlite_date_text rt t = expiry_date (new_credential rt request)) in Htext.
      rewrite Hexp in Htext. contradiction.
    + apply verifyCredentialSignature_spec in E.
      pose proof (new_credential_verifies rt request) as Hc.
      apply verifyCredentialSignature_spec in Hc.
      change (signature row) with (signature (new_credential rt request)) in E.
      rewrite Hc in E. exact (eq_sym E).
Qed.

Lemma dated_credential_is_served_altered_witness :
  let request := {| req_holder_name := "Jane Roe"; req_credential_type := "license";
                    req_expiry_date := Some (ExpiryDate 1798761600000) |} in
  let c := new_credential test_runtime request in
  let row := set_field F_expiry_date "1798761600000.0" c in
  expiry_date c = "2027-01-01T00:00:00.000Z" /\
  CryptoUtils.verifyCredentialSignature test_env c = true /\
  get_credential test_runtime (id c) (Some [john_doe; row])
  = (credential_response test_runtime row, Some [john_doe; row]) /\
  CredentialModel.verifyCredential test_runtime row = false.
Proof.
  intros request c row.
  assert (Hfirst : post_credentials test_runtime (Valid request) (Some [john_doe])
                   = (created_response test_runtime c, Some [john_doe; row])).
  { rewrite issueCredential_run. vm_compute. reflexivity. }
  destruct (dated_credential_is_served_altered test_runtime test_runtime request
              1798761600000 [john_doe] _ _ c Hfirst)
    as (Hexp & Hsig & Hget & Hvalid).
  - reflexivity.
  - reflexivity.
  - reflexivity.
  - discriminate.
  - split; [rewrite Hexp; vm_compute; reflexivity|].
    split; [exact Hsig|]. split; [exact Hget|].
    apply Hvalid.
    + vm_compute. discriminate.
    + reflexivity.
    + intros [_ H]. revert H. vm_compute. discriminate.
Defined.

(** X13. GET /api/credentials/{id} never changes the store and always
    answers: 400 for an empty id, 500 when the database is closed, 404 when
    no row has the id, and otherwise 200 with the first row that has it;
    every answer but the 200 has success false and no data. *)
Theorem get_credential_outcomes
    (rt : Runtime) (wanted : string) (db : Database.t Credential) :
  let response := fst (get_credential rt wanted db) in
  snd (get_credential rt wanted db) = db /\
  status response
  = (match wanted, db with
     | EmptyString, _ => 400
     | _, None => 500
     | _, Some rows =>
         match find (fun row => String.eqb (id row) wanted) rows with
         | Some _ => 200
         | None => 404
         end
     end)%nat /\
  (status response <> 200%nat ->
   success (body response) = false /\ data (body response) = None).
Proof.
  intros response. subst response. rewrite get_credential_run. cbn [fst snd].
  split; [reflexivity|].
  destruct wanted as [|a w]; cbn [truthy].
  - split; [reflexivity | intros _; split; reflexivity].
  - destruct db as [rows|].
    + destruct (find _ rows); (split; [reflexivity|]).
      * intros H. now contradiction H.
      * intros _. split; reflexivity.
    + split; [reflexivity | intros _; split; reflexivity].
Qed.

(** ** The verification service on every path *)

Section Verification.

Variable rt : Runtime.
Variable net : Network.

(** The statuses and flags [classify] can end on. *)
Lemma classify_consistent (c : Credential) :
  let l := classify rt net c in
  (VerificationModel.isValid l = true
   <-> VerificationModel.verificationStatus l = valid) /\
  (VerificationModel.isExpired l = true
   <-> VerificationModel.verificationStatus l = expired) /\
  (VerificationModel.issuerWorkerId l <> None \/ VerificationModel.issuedDate l <> None ->
   VerificationModel.verificationStatus l = valid
   \/ VerificationModel.verificationStatus l = expired).
Proof.
  unfold classify.
  destruct (CryptoUtils.verifyCredentialSignature (process_env rt) c).
  2:{ cbn. repeat split; try discriminate; intros [H | H]; now contradiction H. }
  destruct (net (id c)) as [[] [issued|] | st message]; cbn;
    try (repeat split; try discriminate; intros [H | H]; now contradiction H).
  - destruct (VerificationModel.compareCredentials c issued); cbn.
    + destruct (Date_lt _ _); cbn; repeat split; try discriminate; auto.
    + repeat split; try discriminate; intros [H | H]; now contradiction H.
  - destruct (IssuanceServiceClient.is_404 st); cbn;
      repeat split; try discriminate; intros [H | H]; now contradiction H.
Qed.

Lemma returned_is_verdict (c : Credential) (s s' : Service) (v : VerificationResult) :
  VerificationModel.verifyCredential rt net c s = (Normal v, s') ->
  v = verdict rt c (classify rt net c) /\
  exists rows,
    verifications s = Some rows /\
    s' = {| verifications := Some (rows ++ [v])%list;
            lookups := (lookups s ++ asked rt c)%list |}.
Proof.
  rewrite verifyCredential_run. unfold recorded.
  destruct (verifications s) as [rows|]; [|discriminate].
  intros H. injection H as <- <-. split; [reflexivity|]. now exists rows.
Qed.

Lemma findById_run (wanted : string) (s : Service) :
  VerificationModel.findById wanted s
  = match verifications s with
    | Some rows => (Normal (find (fun row => String.eqb (v_id row) wanted) rows), s)
    | None => (Throw (Error "Failed to find verification"), s)
    end.
Proof. destruct s as [[rows|] asked0]; reflexivity. Qed.

Lemma get_verification_run (wanted : string) (s : Service) :
  get_verification rt wanted s
  = (if truthy wanted then
       match verifications s with
       | None => error_response rt 500 "Failed to retrieve verification"
       | Some rows =>
           match find (fun row => String.eqb (v_id row) wanted) rows with
           | Some v => stored_verification_response rt v
           | None => error_response rt 404 "Verification not found"
           end
       end
     else error_response rt 400 "Verification ID is required",
     s).
Proof.
  unfold get_verification, ErrorHandler.asyncHandler,
    VerificationController.getVerification.
  destruct (truthy wanted); cbn [negb]; [|reflexivity].
  unfold try_catch at 1. unfold bind. rewrite findById_run.
  destruct (verifications s) as [rows|]; [|reflexivity].
  destruct (find _ rows); reflexivity.
Qed.

Lemma post_verifications_run (validated : Validation Credential) (s : Service) :
  post_verifications rt net validated s
  = match validated with
    | Invalid details => (validation_response rt details, s)
    | Valid c =>
        let v := verdict rt c (classify rt net c) in
        match verifications s with
        | Some rows =>
            (verification_response rt v,
             {| verifications := Some (rows ++ [v])%list;
                lookups := (lookups s ++ asked rt c)%list |})
        | None =>
            (error_response rt 500 "Failed to verify credential",
             {| verifications := None; lookups := (lookups s ++ asked rt c)%list |})
        end
    end.
Proof.
  unfold post_verifications, ErrorHandler.asyncHandler.
  destruct validated as [c | details]; [|reflexivity].
  rewrite controller_run, verifyCredential_run. unfold recorded.
  destruct (verifications s); reflexivity.
Qed.

End Verification.

(** X14. Whatever the credential and however the lookup ends, a returned
    result is consistent: is_valid is true exactly on status valid,
    is_expired exactly on status expired, the issuer fields appear only on
    those two statuses, and the record names the submitted id, the
    worker, the generated id and one timestamp for verified_at and
    created_at. *)
Theorem result_flags_are_consistent
    (rt : Runtime) (net : Network) (c : Credential) (s s' : Service)
    (v : VerificationResult) :
  VerificationModel.verifyCredential rt net c s = (Normal v, s') ->
  (is_valid v = true <-> verification_status v = valid) /\
  (is_expired v = true <-> verification_status v = expired) /\
  (issuer_worker_id v <> None \/ v_issued_date v <> None ->
   verification_status v = valid \/ verification_status v = expired) /\
  credential_id v = id c /\
  v_id v = uuidv4 rt /\
  verified_by v = worker_of rt /\
  v_created_at v = verified_at v.
Proof.
  intros Hrun. destruct (returned_is_verdict rt net c s s' v Hrun) as [-> _].
  destruct (classify_consistent rt net c) as (Hvalid & Hexpired & Hissuer).
  cbn zeta in *. unfold verdict, VerificationModel.verification_of.
  cbn [is_valid is_expired verification_status issuer_worker_id v_issued_date
       credential_id v_id verified_by v_created_at verified_at].
  split; [exact Hvalid|]. split; [exact Hexpired|]. split; [|repeat split].
  intros H. apply Hissuer.
  destruct H as [H | H]; [left | right]; intros Hnone; apply H; now rewrite Hnone.
Qed.

Lemma result_flags_are_consistent_witness :
  exists v s',
    VerificationModel.verifyCredential test_runtime (serving john_doe) john_doe
      fresh_service = (Normal v, s') /\
    (is_valid v = true <-> verification_status v = valid) /\
    credential_id v = id john_doe.
Proof.
  assert (Hrun : VerificationModel.verifyCredential test_runtime (serving john_doe)
                   john_doe fresh_service
                 = (Normal (verdict test_runtime john_doe
                              (classify test_runtime (serving john_doe) john_doe)),
                    {| verifications :=
                         Some [verdict test_runtime john_doe
                                 (classify test_runtime (serving john_doe) john_doe)];
                       lookups := [] ++ asked test_runtime john_doe |})).
  { rewrite verifyCredential_run. reflexivity. }
  destruct (result_flags_are_consistent _ _ _ _ _ _ Hrun)
    as (Hvalid & _ & _ & Hid & _).
  eexists. eexists. split; [exact Hrun|]. split; [exact Hvalid | exact Hid].
Defined.

(** X15. An invocation asks the issuance service exactly once, for the
    submitted id, when the signature verifies, and not at all otherwise,
    whether or not the record can then be saved. *)
Theorem one_lookup_when_signature_verifies
    (rt : Runtime) (net : Network) (c : Credential) (s : Service) :
  lookups (snd (VerificationModel.verifyCredential rt net c s))
  = (lookups s
     ++ (if CryptoUtils.verifyCredentialSignature (process_env rt) c
         then [id c] else []))%list.
Proof.
  rewrite verifyCredential_run. unfold recorded, asked.
  destruct (verifications s); reflexivity.
Qed.

(** X16. A result that was returned can be read back: provided its
    generated id is non-empty and was not already that of a stored record,
    findById and GET /api/verifications/{id} yield exactly the record
    returned, from any worker. *)
Theorem returned_verification_can_be_fetched
    (rt rt2 : Runtime) (net : Network) (c : Credential) (s s' : Service)
    (v : VerificationResult) :
  VerificationModel.verifyCredential rt net c s = (Normal v, s') ->
  (forall rows, verifications s = Some rows -> ~ In (uuidv4 rt) (map v_id rows)) ->
  uuidv4 rt <> EmptyString ->
  VerificationModel.findById (v_id v) s' = (Normal (Some v), s') /\
  get_verification rt2 (v_id v) s' = (stored_verification_response rt2 v, s').
Proof.
  intros Hrun Hfresh Hid.
  destruct (returned_is_verdict rt net c s s' v Hrun) as (Hv & rows & Hrows & ->).
  assert (Hvid : v_id v = uuidv4 rt) by (rewrite Hv; reflexivity).
  assert (Hfind : find (fun row => String.eqb (v_id row) (v_id v)) (rows ++ [v])
                  = Some v).
  { rewrite find_app. destruct (find _ rows) as [older|] eqn:E.
    - destruct (find_some _ _ E) as [Hin Heq]. apply String.eqb_eq in Heq.
      exfalso. apply (Hfresh rows Hrows). rewrite <- Hvid, <- Heq. now apply in_map.
    - now rewrite String.eqb_refl. }
  split.
  - rewrite findById_run. cbn [verifications]. now rewrite Hfind.
  - rewrite get_verification_run. cbn [verifications].
    assert (Ht : truthy (v_id v) = true).
    { rewrite Hvid. destruct (uuidv4 rt); [contradiction | reflexivity]. }
    now rewrite Ht, Hfind.
Qed.

Lemma returned_verification_can_be_fetched_witness :
  let v := verdict test_runtime john_doe
             (classify test_runtime (serving john_doe) john_doe) in
  let s' := {| verifications := Some [v];
               lookups := [] ++ asked test_runtime john_doe |} in
  VerificationModel.findById (v_id v) s' = (Normal (Some v), s') /\
  get_verification test_runtime (v_id v) s'
  = (stored_verification_response test_runtime v, s').
Proof.
  intros v s'.
  apply (returned_verification_can_be_fetched test_runtime test_runtime
           (serving john_doe) john_doe fresh_service).
  - rewrite verifyCredential_run. reflexivity.
  - intros rows H. injection H as <-. intros [].
  - discriminate.
Defined.

(** X17. POST /api/verifications always answers, with 400, 200 or 500: a
    request that failed validation is answered 400 and touches neither the
    table nor the issuance service; a validated one is answered 200 with
    the stored record's fields when the database is open, and 500 with the
    fixed message, the table still closed, when it is not. *)
Theorem post_verifications_outcomes
    (rt : Runtime) (net : Network) (validated : Validation Credential) (s : Service) :
  match validated with
  | Invalid details =>
      post_verifications rt net validated s = (validation_response rt details, s)
  | Valid c =>
      match verifications s with
      | Some rows =>
          exists v,
            fst (post_verifications rt net validated s) = verification_response rt v /\
            verifications (snd (post_verifications rt net validated s))
            = Some (rows ++ [v])%list /\
            credential_id v = id c
      | None =>
          fst (post_verifications rt net validated s)
          = error_response rt 500 "Failed to verify credential" /\
          verifications (snd (post_verifications rt net validated s)) = None
      end
  end.
Proof.
  rewrite post_verifications_run.
  destruct validated as [c | details]; [|reflexivity].
  cbn zeta. destruct (verifications s) as [rows|].
  - eexists. repeat split.
  - split; reflexivity.
Qed.

(** ** The two services together *)

Section Wire.

Lemma truthy_nonempty (s : string) : s <> EmptyString -> truthy s = true.
Proof. destruct s; [intros H; now contradiction H | reflexivity]. Qed.

Lemma path_safe_truthy (wanted : string) : path_safe wanted = true -> truthy wanted = true.
Proof. unfold path_safe. intros H. now apply andb_true_iff in H. Qed.

Lemma issuance_endpoint_run (issuer : Runtime) (db : Database.t Credential)
    (wanted : string) :
  path_safe wanted = true ->
  issuance_endpoint issuer db wanted
  = Some match db with
         | None => Rejected (Some 500%nat) "Request failed with status code 500"
         | Some rows =>
             match find (fun row => String.eqb (id row) wanted) rows with
             | Some c => Fulfilled true (Some c)
             | None => Rejected (Some 404%nat) "Request failed with status code 404"
             end
         end.
Proof.
  intros Hsafe. unfold issuance_endpoint. rewrite Hsafe.
  change (ErrorHandler.asyncHandler issuer
            (CredentialController.getCredential issuer wanted) db)
    with (get_credential issuer wanted db).
  rewrite get_credential_run, (path_safe_truthy wanted Hsafe). cbn [fst].
  destruct db as [rows|]; [|reflexivity].
  destruct (find _ rows); reflexivity.
Qed.

(** What the verification service receives when its lookup is carried. *)
Lemma carried_run (net : Network) (issuer : Runtime) (db : Database.t Credential)
    (wanted : string) :
  carried net issuer db wanted ->
  path_safe wanted = true /\
  net wanted
  = match db with
    | None => Rejected (Some 500%nat) "Request failed with status code 500"
    | Some rows =>
        match find (fun row => String.eqb (id row) wanted) rows with
        | Some c => Fulfilled true (Some c)
        | None => Rejected (Some 404%nat) "Request failed with status code 404"
        end
    end.
Proof.
  unfold carried. intros Hnet.
  destruct (path_safe wanted) eqn:Hsafe.
  - split; [reflexivity|].
    rewrite issuance_endpoint_run in Hnet by exact Hsafe. now injection Hnet as <-.
  - unfold issuance_endpoint in Hnet. rewrite Hsafe in Hnet. discriminate Hnet.
Qed.

Lemma wire_carries (issuer : Runtime) (db : Database.t Credential) (wanted : string) :
  path_safe wanted = true -> carried (wire issuer db) issuer db wanted.
Proof.
  intros Hsafe. unfold carried, wire.
  now rewrite (issuance_endpoint_run issuer db wanted Hsafe).
Qed.

Lemma compareCredentials_refl (c : Credential) :
  VerificationModel.compareCredentials c c = true.
Proof. apply compareCredentials_spec. repeat split. Qed.

End Wire.

(** X18. End to end: a credential answered 201 to a request that carried
    no [Date], and then submitted unchanged to a verification service that
    has the same secret and whose lookup is carried to the issuance
    service, is found, matches, and ends as valid, or as expired when its
    expiry_date is earlier than the verifier's clock, with the issuing
    worker's id on the result. *)
Theorem issued_credential_verifies_end_to_end
    (issuer issuer2 verifier : Runtime) (net : Network)
    (request : CreateCredentialRequest)
    (rows : list Credential) (response : HttpResponse IssueData)
    (db' : Database.t Credential) (c : Credential) (s : Service) :
  post_credentials issuer (Valid request) (Some rows) = (response, db') ->
  status response = 201%nat ->
  data (body response) = Some (Issued c) ->
  dated request = false ->
  carried net issuer2 db' (id c) ->
  CryptoUtils.secret (process_env verifier) = CryptoUtils.secret (process_env issuer) ->
  let late := Date_lt (Date_parse verifier (expiry_date c))
                      (Some (check_time verifier)) in
  exists v,
    VerificationModel.verifyCredential verifier net c s = recorded s [id c] v /\
    verification_status v = (if late then expired else valid) /\
    is_valid v = negb late /\
    is_expired v = late /\
    issuer_worker_id v = Some (worker_of issuer).
Proof.
  intros Hrun Hstatus Hdata Hundated Hnet Hsecret late.
  destruct (created_inversion _ _ _ _ _ Hrun Hstatus) as (_ & Hviol & -> & ->).
  cbn in Hdata. injection Hdata as <-.
  set (c := new_credential issuer request) in *.
  assert (Hsig : CryptoUtils.verifyCredentialSignature (process_env verifier) c = true).
  { rewrite (verify_same_secret (process_env issuer) (process_env verifier))
      by exact Hsecret.
    apply new_credential_verifies. }
  assert (Hanswer : net (id c) = Fulfilled true (Some c)).
  { rewrite (proj2 (carried_run net issuer2 _ (id c) Hnet)).
    subst c. rewrite (find_created issuer request rows Hviol).
    now rewrite undated_row by exact Hundated. }
  rewrite verifyCredential_run. unfold asked, classify.
  rewrite Hsig, Hanswer, compareCredentials_refl. fold late.
  eexists. split; [reflexivity|]. cbn.
  repeat split. unfold spread_if_truthy. now rewrite worker_of_truthy.
Qed.

Lemma issued_credential_verifies_end_to_end_witness :
  let request := {| req_holder_name := "Jane Roe"; req_credential_type := "license";
                    req_expiry_date := None |} in
  let c := new_credential test_runtime request in
  exists v,
    VerificationModel.verifyCredential test_runtime
      (wire test_runtime (Some [john_doe; c])) c fresh_service
    = recorded fresh_service [id c] v /\
    verification_status v = valid /\
    is_valid v = true /\
    is_expired v = false /\
    issuer_worker_id v = Some "test-verification-worker-1".
Proof.
  intros request c.
  assert (Hfirst : post_credentials test_runtime (Valid request) (Some [john_doe])
                   = (created_response test_runtime c, Some [john_doe; c])).
  { rewrite issueCredential_run. reflexivity. }
  destruct (issued_credential_verifies_end_to_end test_runtime test_runtime
              test_runtime (wire test_runtime (Some [john_doe; c])) request [john_doe]
              _ _ c fresh_service Hfirst)
    as (v & Hrun & Hst & Hvalid & Hexp & Hworker).
  - reflexivity.
  - reflexivity.
  - reflexivity.
  - apply wire_carries. reflexivity.
  - reflexivity.
  - exists v. split; [exact Hrun|].
    assert (Hlate : Date_lt (Date_parse test_runtime (expiry_date c))
                            (Some (check_time test_runtime)) = false)
      by (vm_compute; reflexivity).
    rewrite Hlate in Hst, Hvalid, Hexp.
    repeat split; assumption.
Defined.

(** X19. End to end: a self-consistent credential whose id no row of the
    issuance store has, and whose lookup is carried to the issuance
    service, ends as not_found, after that one lookup. *)
Theorem unissued_credential_is_not_found_end_to_end
    (issuer verifier : Runtime) (net : Network) (rows : list Credential)
    (c : Credential) (s : Service) :
  carried net issuer (Some rows) (id c) ->
  CryptoUtils.verifyCredentialSignature (process_env verifier) c = true ->
  ~ In (id c) (map id rows) ->
  exists v,
    VerificationModel.verifyCredential verifier net c s = recorded s [id c] v /\
    verification_status v = not_found /\ is_valid v = false.
Proof.
  intros Hnet Hsig Hfresh.
  assert (Hanswer : net (id c)
                    = Rejected (Some 404%nat) "Request failed with status code 404").
  { rewrite (proj2 (carried_run net issuer _ (id c) Hnet)).
    destruct (find _ rows) as [other|] eqn:E; [|reflexivity].
    destruct (find_some _ _ E) as [Hin Heq]. apply String.eqb_eq in Heq.
    exfalso. apply Hfresh. rewrite <- Heq. now apply in_map. }
  rewrite verifyCredential_run. unfold asked, classify. rewrite Hsig, Hanswer.
  eexists. repeat split.
Qed.

Lemma unissued_credential_is_not_found_end_to_end_witness :
  exists v,
    VerificationModel.verifyCredential test_runtime
      (wire test_runtime (Some [])) john_doe fresh_service
    = recorded fresh_service [id john_doe] v /\
    verification_status v = not_found /\ is_valid v = false.
Proof.
  apply (unissued_credential_is_not_found_end_to_end test_runtime test_runtime
           (wire test_runtime (Some [])) [] john_doe fresh_service).
  - apply wire_carries. vm_compute. reflexivity.
  - vm_compute. reflexivity.
  - intros [].
Defined.

(** X20. End to end: while the issuance service's database is closed, a
    lookup that is carried to it is answered 500, and every
    self-consistent credential so looked up, issued or not, ends as
    invalid. *)
Theorem issuance_outage_reads_as_invalid_end_to_end
    (issuer verifier : Runtime) (net : Network) (c : Credential) (s : Service) :
  carried net issuer None (id c) ->
  CryptoUtils.verifyCredentialSignature (process_env verifier) c = true ->
  net (id c) = Rejected (Some 500%nat) "Request failed with status code 500" /\
  exists v,
    VerificationModel.verifyCredential verifier net c s = recorded s [id c] v /\
    verification_status v = invalid /\ is_valid v = false /\ is_expired v = false.
Proof.
  intros Hnet Hsig.
  assert (Hanswer : net (id c)
                    = Rejected (Some 500%nat) "Request failed with status code 500").
  { exact (proj2 (carried_run net issuer None (id c) Hnet)). }
  split; [exact Hanswer|].
  rewrite verifyCredential_run. unfold asked, classify. rewrite Hsig, Hanswer.
  eexists. repeat split.
Qed.

Lemma issuance_outage_reads_as_invalid_end_to_end_witness :
  wire test_runtime None (id john_doe)
  = Rejected (Some 500%nat) "Request failed with status code 500" /\
  exists v,
    VerificationModel.verifyCredential test_runtime
      (wire test_runtime None) john_doe fresh_service
    = recorded fresh_service [id john_doe] v /\
    verification_status v = invalid /\ is_valid v = false /\ is_expired v = false.
Proof.
  apply (issuance_outage_reads_as_invalid_end_to_end test_runtime test_runtime
           (wire test_runtime None) john_doe fresh_service).
  - apply wire_carries. vm_compute. reflexivity.
  - vm_compute. reflexivity.
Defined.

(** X21. End to end: against a store with pairwise distinct ids, a
    submitted credential that has the id of a stored one but differs from
    it in any of the compared fields, and whose lookup (if it makes one)
    is carried to the issuance service, is never classified valid or
    expired: it ends as signature_mismatch or as invalid, however it was
    signed. *)
Theorem altered_credential_is_never_valid_end_to_end
    (issuer_rt verifier : Runtime) (net : Network) (rows : list Credential)
    (stored submitted : Credential) (s : Service) :
  carried net issuer_rt (Some rows) (id stored) ->
  NoDup (map id rows) ->
  In stored rows ->
  id submitted = id stored ->
  (holder_name submitted <> holder_name stored
   \/ issuer submitted <> issuer stored
   \/ issued_date submitted <> issued_date stored
   \/ credential_type submitted <> credential_type stored
   \/ expiry_date submitted <> expiry_date stored
   \/ signature submitted <> signature stored) ->
  exists v asked_ids,
    VerificationModel.verifyCredential verifier net submitted s
    = recorded s asked_ids v /\
    (verification_status v = signature_mismatch \/ verification_status v = invalid) /\
    is_valid v = false /\ is_expired v = false.
Proof.
  intros Hnet Hnodup Hin Hsame Hdiff.
  rewrite verifyCredential_run. unfold asked, classify.
  destruct (CryptoUtils.verifyCredentialSignature (process_env verifier) submitted).
  2:{ eexists. eexists. split; [reflexivity|]. cbn. auto. }
  rewrite Hsame, (proj2 (carried_run net issuer_rt _ (id stored) Hnet)).
  rewrite (find_by_unique_id rows stored Hnodup Hin).
  assert (E : VerificationModel.compareCredentials submitted stored = false).
  { destruct (VerificationModel.compareCredentials submitted stored) eqn:E;
      [|reflexivity].
    apply compareCredentials_spec in E. tauto. }
  rewrite E. eexists. eexists. split; [reflexivity|]. cbn. auto.
Qed.

Lemma altered_credential_is_never_valid_end_to_end_witness :
  exists v asked_ids,
    VerificationModel.verifyCredential test_runtime
      (wire test_runtime (Some [john_doe]))
      (sealed test_env
         {| d_id := d_id john_doe_data;
            d_holder_name := "Jane Doe";
            d_issuer := d_issuer john_doe_data;
            d_issued_date := d_issued_date john_doe_data;
            d_credential_type := d_credential_type john_doe_data;
            d_expiry_date := d_expiry_date john_doe_data;
            d_worker_id := d_worker_id john_doe_data |}
         "2024-01-01T00:00:00.000Z" "2024-01-01T00:00:00.000Z")
      fresh_service
    = recorded fresh_service asked_ids v /\
    (verification_status v = signature_mismatch \/ verification_status v = invalid) /\
    is_valid v = false /\ is_expired v = false.
Proof.
  apply (altered_credential_is_never_valid_end_to_end test_runtime test_runtime
           (wire test_runtime (Some [john_doe])) [john_doe] john_doe).
  - apply wire_carries. vm_compute. reflexivity.
  - repeat constructor. intros [].
  - left. reflexivity.
  - vm_compute. reflexivity.
  - left. vm_compute. discriminate.
Defined.

(** X29. End to end: a credential answered 201 to a request that carried
    a [Date], submitted unchanged to a verification service that has the
    same secret and whose lookup is carried to the issuance service,
    passes the signature check and is found, but fails the field
    comparison where the stored expiry text differs from the ISO text it
    was answered with: it ends as invalid, neither valid nor expired. *)
Theorem dated_credential_reads_as_invalid_end_to_end
    (issuer issuer2 verifier : Runtime) (net : Network)
    (request : CreateCredentialRequest) (t : Z)
    (rows : list Credential) (response : HttpResponse IssueData)
    (db' : Database.t Credential) (c : Credential) (s : Service) :
  post_credentials issuer (Valid request) (Some rows) = (response, db') ->
  status response = 201%nat ->
  data (body response) = Some (Issued c) ->
  req_expiry_date request = Some (ExpiryDate t) ->
  sqlite_date_text issuer t <> toISOString issuer t ->
  carried net issuer2 db' (id c) ->
  CryptoUtils.secret (process_env verifier) = CryptoUtils.secret (process_env issuer) ->
  exists v,
    VerificationModel.verifyCredential verifier net c s = recorded s [id c] v /\
    verification_status v = invalid /\
    is_valid v = false /\ is_expired v = false /\
    issuer_worker_id v = None /\ v_issued_date v = None.
Proof.
  intros Hrun Hstatus Hdata Hdate Hdiff Hnet Hsecret.
  destruct (created_inversion _ _ _ _ _ Hrun Hstatus) as (_ & Hviol & -> & ->).
  cbn in Hdata. injection Hdata as <-.
  set (c := new_credential issuer request) in *.
  assert (Hsig : CryptoUtils.verifyCredentialSignature (process_env verifier) c = true).
  { rewrite (verify_same_secret (process_env issuer) (process_env verifier))
      by exact Hsecret.
    apply new_credential_verifies. }
  assert (Hanswer : net (id c) = Fulfilled true (Some (new_row issuer request))).
  { rewrite (proj2 (carried_run net issuer2 _ (id c) Hnet)).
    subst c. now rewrite (find_created issuer request rows Hviol). }
  assert (E : VerificationModel.compareCredentials c (new_row issuer request) = false).
  { destruct (VerificationModel.compareCredentials c (new_row issuer request)) eqn:E;
      [|reflexivity].
    apply compareCredentials_spec in E.
    destruct E as (_ & _ & _ & _ & _ & Hexp & _). exfalso. apply Hdiff.
    revert Hexp. subst c. cbn. unfold expiry_of. rewrite Hdate. cbn.
    intros Hexp. now symmetry. }
  rewrite verifyCredential_run. unfold asked, classify.
  rewrite Hsig, Hanswer, E.
  eexists. repeat split.
Qed.

Lemma dated_credential_reads_as_invalid_end_to_end_witness :
  let request := {| req_holder_name := "Jane Roe"; req_credential_type := "license";
                    req_expiry_date := Some (ExpiryDate 1798761600000) |} in
  let c := new_credential test_runtime request in
  let row := set_field F_expiry_date "1798761600000.0" c in
  exists v,
    VerificationModel.verifyCredential test_runtime
      (wire test_runtime (Some [john_doe; row])) c fresh_service
    = recorded fresh_service [id c] v /\
    verification_status v = invalid /\
    is_valid v = false /\ is_expired v = false /\
    issuer_worker_id v = None /\ v_issued_date v = None.
Proof.
  intros request c row.
  assert (Hfirst : post_credentials test_runtime (Valid request) (Some [john_doe])
                   = (created_response test_runtime c, Some [john_doe; row])).
  { rewrite issueCredential_run. vm_compute. reflexivity. }
  apply (dated_credential_reads_as_invalid_end_to_end test_runtime test_runtime
           test_runtime (wire test_runtime (Some [john_doe; row])) request
           1798761600000 [john_doe] _ _ c fresh_service Hfirst).
  - reflexivity.
  - reflexivity.
  - reflexivity.
  - vm_compute. discriminate.
  - apply wire_carries. reflexivity.
  - reflexivity.
Defined.

(** ** Health checks *)

(** X22. The verification service's health check never throws and its
    status follows the database alone: 200 and healthy with an open
    database, whatever the issuance service answers (it is then reported
    reachable only for a 2xx answer whose success is true), 503 and
    unhealthy with a closed one; it changes nothing. *)
Theorem verification_health_follows_database
    (rt : Runtime) (health : HealthOutcome) (uptime : Z) (s : Service) :
  exists response d,
    VerificationController.healthCheck rt health uptime s = (Normal response, s) /\
    data (body response) = Some d /\
    match verifications s with
    | Some _ =>
        status response = 200%nat /\ success (body response) = true /\
        h_status d = "healthy" /\ h_database d = "connected" /\
        h_issuance_service d
        = Some (match health with
                | HealthFulfilled true => "reachable"
                | _ => "unreachable"
                end)
    | None =>
        status response = 503%nat /\ success (body response) = false /\
        h_status d = "unhealthy" /\ h_database d = "disconnected" /\
        h_issuance_service d = Some "unknown"
    end.
Proof.
  destruct s as [[rows|] asked0].
  - destruct health as [[] | st msg]; eexists; eexists;
      (split; [reflexivity|]); repeat split.
  - eexists. eexists. split; [reflexivity|]. repeat split.
Qed.

(** X23. The issuance service's health check never throws, changes
    nothing, and answers 200 and healthy exactly when its database is
    open, 503 and unhealthy otherwise. *)
Theorem issuance_health_follows_database
    (rt : Runtime) (uptime : Z) (db : Database.t Credential) :
  exists response d,
    CredentialController.healthCheck rt uptime db = (Normal response, db) /\
    data (body response) = Some d /\
    h_uptime d = uptime /\
    match db with
    | Some _ =>
        status response = 200%nat /\ success (body response) = true /\
        h_status d = "healthy" /\ h_database d = "connected"
    | None =>
        status response = 503%nat /\ success (body response) = false /\
        h_status d = "unhealthy" /\ h_database d = "disconnected"
    end.
Proof.
  destruct db as [rows|]; eexists; eexists; (split; [reflexivity|]); repeat split.
Qed.

(** ** Counting verifications *)

Section Counting.

Lemma count_run (s : Service) :
  VerificationModel.count s
  = match verifications s with
    | Some rows => (Normal (List.length rows), s)
    | None => (Throw (Error "Failed to count verifications"), s)
    end.
Proof. destruct s as [[rows|] asked0]; reflexivity. Qed.

Lemma verify_all_grows
    (requests : list (Runtime * Network * Validation Credential))
    (s : Service) (rows : list VerificationResult) :
  verifications s = Some rows ->
  exists added,
    verifications (verify_all requests s) = Some (rows ++ added)%list /\
    List.length added = validated_count requests.
Proof.
  revert s rows. induction requests as [|[[rt net] validated] requests IH];
    intros s rows Hrows.
  - exists []. rewrite app_nil_r. split; [exact Hrows | reflexivity].
  - unfold verify_all. cbn [fold_left fst snd].
    rewrite post_verifications_run.
    destruct validated as [c | details].
    + cbn zeta. rewrite Hrows. cbn [snd].
      destruct (IH {| verifications :=
                        Some (rows ++ [verdict rt c (classify rt net c)])%list;
                      lookups := (lookups s ++ asked rt c)%list |}
                   (rows ++ [verdict rt c (classify rt net c)])%list eq_refl)
        as (more & Hmore & Hlen).
      exists (verdict rt c (classify rt net c) :: more).
      unfold verify_all in Hmore. rewrite Hmore, <- app_assoc.
      split; [reflexivity|].
      unfold validated_count in *. cbn [filter snd List.length]. now rewrite Hlen.
    + cbn [snd]. destruct (IH s rows Hrows) as (more & Hmore & Hlen).
      exists more. split; [exact Hmore|].
      unfold validated_count in *. cbn [filter snd]. exact Hlen.
Qed.

End Counting.

(** X24. With the database open, a sequence of requests to
    POST /api/verifications only appends to the table, one record for
    each request that passed validation and none for the others, so that
    the count afterwards is the count before plus the number of validated
    requests: submitting one credential again adds a record again. *)
Theorem every_validated_request_is_counted
    (requests : list (Runtime * Network * Validation Credential))
    (s : Service) (rows : list VerificationResult) :
  verifications s = Some rows ->
  exists added,
    verifications (verify_all requests s) = Some (rows ++ added)%list /\
    List.length added = validated_count requests /\
    VerificationModel.count (verify_all requests s)
    = (Normal (List.length rows + validated_count requests)%nat,
       verify_all requests s).
Proof.
  intros Hrows.
  destruct (verify_all_grows requests s rows Hrows) as (added & Hall & Hlen).
  exists added. split; [exact Hall|]. split; [exact Hlen|].
  rewrite count_run, Hall, length_app, Hlen. reflexivity.
Qed.

Lemma every_validated_request_is_counted_witness :
  exists added,
    verifications
      (verify_all [ (test_runtime, serving john_doe, Valid john_doe);
                    (test_runtime, serving john_doe, Invalid ["id is required"]);
                    (test_runtime, serving john_doe, Valid john_doe) ]
                  fresh_service)
    = Some ([] ++ added)%list /\
    List.length added = 2%nat.
Proof.
  destruct (every_validated_request_is_counted
              [ (test_runtime, serving john_doe, Valid john_doe);
                (test_runtime, serving john_doe, Invalid ["id is required"]);
                (test_runtime, serving john_doe, Valid john_doe) ]
              fresh_service [] eq_refl) as (added & Hall & Hlen & _).
  exists added. split; [exact Hall | exact Hlen].
Defined.

(** ** The frontend's reading of a result *)

(** X25. The frontend knows every status the verification service returns
    and its colours agree with the flags: a returned result is shown in
    the success colour exactly when is_valid is true, in the warning colour
    exactly when is_expired is true, never in the colour nor with the
    message kept for unknown statuses. *)
Theorem displayed_status_agrees_with_flags
    (rt : Runtime) (net : Network) (c : Credential) (s s' : Service)
    (v : VerificationResult) :
  VerificationModel.verifyCredential rt net c s = (Normal v, s') ->
  let shown := status_name (verification_status v) in
  (FrontendUtils.getVerificationStatusColor shown = FrontendUtils.success_color
   <-> is_valid v = true) /\
  (FrontendUtils.getVerificationStatusColor shown = FrontendUtils.warning_color
   <-> is_expired v = true) /\
  FrontendUtils.getVerificationStatusColor shown <> FrontendUtils.info_color /\
  FrontendUtils.getVerificationStatusMessage shown <> "Unknown verification status".
Proof.
  intros Hrun shown. subst shown.
  destruct (returned_is_verdict rt net c s s' v Hrun) as [-> _].
  destruct (classify_consistent rt net c) as (Hvalid & Hexpired & _).
  cbn zeta in *. unfold verdict, VerificationModel.verification_of.
  cbn [is_valid is_expired verification_status].
  rewrite Hvalid, Hexpired.
  destruct (VerificationModel.verificationStatus (classify rt net c));
    cbn; repeat split; intros H; try discriminate H; try reflexivity.
Qed.

Lemma displayed_status_agrees_with_flags_witness :
  let v := verdict test_runtime john_doe
             (classify test_runtime (serving john_doe) john_doe) in
  FrontendUtils.getVerificationStatusColor (status_name (verification_status v))
  = FrontendUtils.success_color <-> is_valid v = true.
Proof.
  intros v.
  apply (displayed_status_agrees_with_flags test_runtime (serving john_doe) john_doe
           fresh_service
           {| verifications := Some [v]; lookups := [] ++ asked test_runtime john_doe |}).
  rewrite verifyCredential_run. reflexivity.
Defined.

(** ** sanitizeInput *)

Section Sanitize.

Lemma remove_angle_brackets_spec (s : string) :
  (forall a, In a (list_ascii_of_string (ValidationUtils.remove_angle_brackets s)) ->
     a <> "<"%char /\ a <> ">"%char) /\
  (String.length (ValidationUtils.remove_angle_brackets s) <= String.length s)%nat.
Proof.
  induction s as [|a s [IHin IHlen]]; [split; [intros a [] | reflexivity]|].
  cbn [ValidationUtils.remove_angle_brackets].
  destruct (Ascii.eqb a "<") eqn:Elt; destruct (Ascii.eqb a ">") eqn:Egt;
    cbn [orb]; try (split; [exact IHin | cbn [String.length]; lia]).
  split.
  - intros b [<- | Hin]; [|now apply IHin].
    apply Ascii.eqb_neq in Elt, Egt. now split.
  - cbn [String.length]. lia.
Qed.

Lemma strip_prefix_length (p bs bs' : list Z) :
  ValidationUtils.strip_prefix p bs = Some bs' ->
  (List.length bs' <= List.length bs)%nat.
Proof.
  revert bs. induction p as [|x p IH]; intros bs H.
  - injection H as <-. lia.
  - destruct bs as [|b bs]; [discriminate|].
    cbn [ValidationUtils.strip_prefix] in H.
    destruct (x =? b); [|discriminate]. apply IH in H. cbn [List.length]. lia.
Qed.

Lemma strip_one_length (ws : list (list Z)) (bs bs' : list Z) :
  ValidationUtils.strip_one ws bs = Some bs' ->
  (List.length bs' <= List.length bs)%nat.
Proof.
  induction ws as [|w ws IH]; [discriminate|].
  cbn [ValidationUtils.strip_one].
  destruct (ValidationUtils.strip_prefix w bs) as [r|] eqn:E; [|exact IH].
  intros H. injection H as <-. now apply strip_prefix_length in E.
Qed.

Lemma strip_all_length (ws : list (list Z)) (fuel : nat) (bs : list Z) :
  (List.length (ValidationUtils.strip_all ws fuel bs) <= List.length bs)%nat.
Proof.
  revert bs. induction fuel as [|k IH]; intros bs; [reflexivity|].
  cbn [ValidationUtils.strip_all].
  destruct (ValidationUtils.strip_one ws bs) as [r|] eqn:E; [|reflexivity].
  apply strip_one_length in E. specialize (IH r). lia.
Qed.

Lemma string_of_list_ascii_length (l : list ascii) :
  String.length (string_of_list_ascii l) = List.length l.
Proof. induction l as [|a l IH]; cbn; [reflexivity | now rewrite IH]. Qed.

Lemma list_ascii_of_string_length (s : string) :
  List.length (list_ascii_of_string s) = String.length s.
Proof. induction s as [|a s IH]; cbn; [reflexivity | now rewrite IH]. Qed.

Lemma trim_length (s : string) :
  (String.length (ValidationUtils.trim s) <= String.length s)%nat.
Proof.
  unfold ValidationUtils.trim, ValidationUtils.string_of_bytes,
    ValidationUtils.trimEnd, ValidationUtils.trimStart.
  rewrite string_of_list_ascii_length, length_map, length_rev.
  set (bs := SHA256.bytes_of s).
  assert (Hbs : List.length bs = String.length s).
  { unfold bs, SHA256.bytes_of. now rewrite length_map, list_ascii_of_string_length. }
  pose proof (strip_all_length ValidationUtils.white_space (List.length bs) bs) as H1.
  match goal with
  | |- (List.length (ValidationUtils.strip_all ?ws ?fuel ?l) <= _)%nat =>
      pose proof (strip_all_length ws fuel l) as H2
  end.
  rewrite length_rev in H2. lia.
Qed.

End Sanitize.

(** X26. What sanitizeInput returns contains neither of the angle brackets
    and is never longer than its input. *)
Theorem sanitized_input_has_no_angle_brackets (input : string) :
  (forall a, In a (list_ascii_of_string (ValidationUtils.sanitizeInput input)) ->
     a <> "<"%char /\ a <> ">"%char) /\
  (String.length (ValidationUtils.sanitizeInput input) <= String.length input)%nat.
Proof.
  unfold ValidationUtils.sanitizeInput.
  destruct (remove_angle_brackets_spec (ValidationUtils.trim input)) as [Hin Hlen].
  split; [exact Hin|]. pose proof (trim_length input). lia.
Qed.

(** ** The duplicate check is not atomic *)

(** X27. When two handlers for the same holder and type both run their
    duplicate check before either inserts, both checks find nothing and
    both inserts succeed (the ids being two distinct unused ones): the
    store ends with two credentials of one holder and type, which
    requests served one after another never produce. *)
Theorem interleaved_issuance_stores_duplicate
    (rt1 rt2 : Runtime) (request1 request2 : CreateCredentialRequest)
    (rows : list Credential) :
  req_holder_name request2 = req_holder_name request1 ->
  req_credential_type request2 = req_credential_type request1 ->
  (forall row, In row rows ->
     ~ (holder_name row = req_holder_name request1
        /\ credential_type row = req_credential_type request1)) ->
  ~ In (uuidv4 rt1) (map id rows) ->
  ~ In (uuidv4 rt2) (map id rows) ->
  uuidv4 rt1 <> uuidv4 rt2 ->
  let c1 := new_credential rt1 request1 in
  let c2 := new_credential rt2 request2 in
  let row1 := new_row rt1 request1 in
  let row2 := new_row rt2 request2 in
  (found1 <- CredentialModel.findByHolderAndType
               (req_holder_name request1) (req_credential_type request1) ;;
   found2 <- CredentialModel.findByHolderAndType
               (req_holder_name request2) (req_credential_type request2) ;;
   created1 <- CredentialModel.create rt1 request1 ;;
   created2 <- CredentialModel.create rt2 request2 ;;
   ret (found1, found2, created1, created2)) (Some rows)
  = (Normal (None, None, c1, c2), Some (rows ++ [row1; row2])%list) /\
  holder_and_type row1 = holder_and_type row2 /\
  ~ NoDup (map holder_and_type (rows ++ [row1; row2])).
Proof.
  intros Hname Htype Hnew Hfresh1 Hfresh2 Hdistinct c1 c2 row1 row2.
  apply no_match_find in Hnew.
  assert (Hnew2 : find (same_holder_and_type request2) rows = None).
  { unfold same_holder_and_type in *. now rewrite Hname, Htype. }
  assert (Hpair : holder_and_type row1 = holder_and_type row2).
  { unfold holder_and_type. cbn. now rewrite Hname, Htype. }
  split; [|split; [exact Hpair|]].
  - unfold bind. rewrite !findByHolderAndType_run, Hnew, Hnew2, create_run.
    apply (fresh_id_not_violating rows row1) in Hfresh1. fold row1. rewrite Hfresh1.
    rewrite create_run. fold row2.
    assert (Hok : CredentialModel.credentials_violates (rows ++ [row1]) row2 = false).
    { apply fresh_id_not_violating. rewrite map_app. intros Hin.
      apply in_app_or in Hin as [Hin | [Hin | []]]; [contradiction|].
      apply Hdistinct. exact Hin. }
    rewrite Hok, <- app_assoc. reflexivity.
  - rewrite map_app. intros Hnodup. apply NoDup_app_remove_l in Hnodup.
    cbn [map] in Hnodup. rewrite Hpair in Hnodup.
    inversion Hnodup as [|x l Hnotin _]. apply Hnotin. now left.
Qed.

Lemma interleaved_issuance_stores_duplicate_witness :
  let request := {| req_holder_name := "Jane Roe"; req_credential_type := "license";
                    req_expiry_date := None |} in
  let other_worker :=
    {| process_env := test_env;
       Date_parse := IsoDate.parse 0;
       toISOString := IsoDate.format;
       sqlite_date_text := SqliteText.render;
       start_time := 1748736000000;
       check_time := 1748736000000;
       reply_time := 1748736000000;
       uuidv4 := "0c1d2e3f-4a5b-4c6d-8e7f-901a2b3c4d5e";
       random_1000 := 8;
       handler_random_1000 := 8 |} in
  ~ NoDup (map holder_and_type
             ([john_doe] ++ [new_row test_runtime request;
                             new_row other_worker request])).
Proof.
  intros request other_worker.
  apply (interleaved_issuance_stores_duplicate test_runtime other_worker request request
           [john_doe]).
  - reflexivity.
  - reflexivity.
  - intros row [<- | []] [Hn _]. vm_compute in Hn. discriminate Hn.
  - intros [H | []]. vm_compute in H. discriminate H.
  - intros [H | []]. vm_compute in H. discriminate H.
  - vm_compute. discriminate.
Defined.
